(** * The expense tracker of [expense_tracker.py]

    A shallow embedding of the ledger ([ExpenseTracker]), its records
    ([Expense]), the aggregations of [view_summary] and [graphical_summary],
    and the JSON persistence of [save_to_file] / [load_from_file], together
    with the parts of Python's [datetime] module the tracker calls.

    Conventions.
    - A Python [str] is a [string] of bytes (ASCII, or UTF-8 for the rest);
      comparison of strings is the byte-wise lexical order, which is the
      code-point order Python uses.
    - A Python [dict] is a [gmap]: the tracker only reads its dictionaries
      back through [sorted(...)] or as category/total pairs.
    - Amounts are kept abstract ([Amount]): a type with the [0] that [sum] and
      [defaultdict(float)] start from, the [+] they fold with, and the parser
      [float(...)].  The amounts of the program are binary64 floats
      ([float_amount]). *)

From Stdlib Require Import ZArith Lia Ascii Floats.
From stdpp Require Import prelude strings gmap sorting pretty.

Open Scope Z_scope.

(** ** Python's calendar arithmetic and [strptime] *)

Module Datetime.

(** A [datetime] value, reduced to the date fields the tracker reads. *)
Record date := Date { year : Z; month : Z; day : Z }.

#[global] Instance date_eq_dec : EqDecision date.
Proof. solve_decision. Defined.

Definition MINYEAR : Z := 1.
Definition MAXYEAR : Z := 9999.

(** [_DAYS_IN_MONTH], with its placeholder at index 0. *)
Definition DAYS_IN_MONTH : list Z :=
  [-1; 31; 28; 31; 30; 31; 30; 31; 31; 30; 31; 30; 31].

(** [_DAYS_BEFORE_MONTH]: the running sums the module computes on import. *)
Definition DAYS_BEFORE_MONTH : list Z :=
  [-1; 0; 31; 59; 90; 120; 151; 181; 212; 243; 273; 304; 334].

(** [_is_leap]. *)
Definition is_leap (y : Z) : bool :=
  (y mod 4 =? 0) && (negb (y mod 100 =? 0) || (y mod 400 =? 0)).

(** [_days_before_year]: number of days before January 1st of the year. *)
Definition days_before_year (year : Z) : Z :=
  let y := year - 1 in
  y * 365 + y / 4 - y / 100 + y / 400.

(** [_days_in_month]. *)
Definition days_in_month (year month : Z) : Z :=
  if (month =? 2) && is_leap year then 29
  else default 0 (DAYS_IN_MONTH !! Z.to_nat month).

(** [_days_before_month]. *)
Definition days_before_month (year month : Z) : Z :=
  default 0 (DAYS_BEFORE_MONTH !! Z.to_nat month)
  + (if (2 <? month) && is_leap year then 1 else 0).

(** [_ymd2ord]: the ordinal of a date, 0001-01-01 being day 1. *)
Definition ymd2ord (year month day : Z) : Z :=
  days_before_year year + days_before_month year month + day.

Definition toordinal (d : date) : Z := ymd2ord (year d) (month d) (day d).

(** [_check_date_fields]: what the [date] constructor accepts; [None]
    stands for the [ValueError] it raises otherwise. *)
Definition check_date_fields (y m d : Z) : bool :=
  (MINYEAR <=? y) && (y <=? MAXYEAR) && (1 <=? m) && (m <=? 12)
  && (1 <=? d) && (d <=? days_in_month y m).

Definition new_date (y m d : Z) : option date :=
  if check_date_fields y m d then Some (Date y m d) else None.

(** [_isoweek1monday]: the ordinal of the Monday starting ISO week 1. *)
Definition isoweek1monday (year : Z) : Z :=
  let THURSDAY := 3 in
  let firstday := ymd2ord year 1 1 in
  let firstweekday := (firstday + 6) mod 7 in
  let week1monday := firstday - firstweekday in
  if THURSDAY <? firstweekday then week1monday + 7 else week1monday.

(** [date.isocalendar]: (ISO year, ISO week, ISO weekday). *)
Definition isocalendar (d : date) : Z * Z * Z :=
  let year := year d in
  let week1monday := isoweek1monday year in
  let today := toordinal d in
  let week := (today - week1monday) / 7 in
  let day := (today - week1monday) mod 7 in
  if week <? 0 then
    let year := year - 1 in
    let week1monday := isoweek1monday year in
    let week := (today - week1monday) / 7 in
    let day := (today - week1monday) mod 7 in
    (year, week + 1, day + 1)
  else if (52 <=? week) && (isoweek1monday (year + 1) <=? today) then
    (year + 1, 0 + 1, day + 1)
  else (year, week + 1, day + 1).

(** [date.weekday]: Monday is 0 and Sunday 6 (0001-01-01 is a Monday). *)
Definition weekday (n : Z) : Z := (n + 6) mod 7.

(** *** The ISO week, from the words of the specification

    "Weeks start Monday, week 1 is the week containing the first Thursday
    of the year": the first Thursday is found among the first seven days
    of the year, week 1 starts on the Monday three days before it, and a
    day is in week [w] of ISO year [y] when it falls in the [w]-th block
    of seven days from there, before week 1 of the next year starts. *)
Definition first_thursday (y : Z) : Z :=
  let jan1 := ymd2ord y 1 1 in
  default jan1 (List.find (λ n, weekday n =? 3)
                          ((λ k, jan1 + k) <$> [0; 1; 2; 3; 4; 5; 6])).

Definition week1_monday (y : Z) : Z := first_thursday y - 3.

Definition iso_week (n y w : Z) : Prop :=
  1 ≤ w
  ∧ week1_monday y + 7 * (w - 1) ≤ n < week1_monday y + 7 * w
  ∧ n < week1_monday (y + 1).

(** *** The regular expression [strptime] compiles for ["%Y-%m-%d"]

    [_strptime.py] turns the format into
    [(?P<Y>\d\d\d\d)-(?P<m>1[0-2]|0[1-9]|[1-9])-(?P<d>3[0-1]|[1-2]\d|0[1-9]|[1-9]| [1-9])],
    matches it at the start of the text, backtracking over the
    alternatives in the order they are written, and then refuses a text
    that is longer than the match. *)

Definition digit_of (c : ascii) : option Z :=
  let n := Z.of_N (N_of_ascii c) in
  if (48 <=? n) && (n <=? 57) then Some (n - 48) else None.

(** A character class: the digits from [lo] to [hi]. *)
Definition in_range (lo hi : Z) (c : ascii) : option Z :=
  v ← digit_of c; if (lo <=? v) && (v <=? hi) then Some v else None.

(** The blank of the alternative [ [1-9]]; [int] ignores it. *)
Definition blank (c : ascii) : option Z :=
  if decide (c = " "%char) then Some 0 else None.

(** One alternative of two characters, and one of a single character:
    the number [int] reads from the matched text, and the text left. *)
Definition two (p1 p2 : ascii → option Z) (s : string) : list (Z * string) :=
  match s with
  | String a (String b rest) =>
      match p1 a, p2 b with
      | Some x, Some y => [(10 * x + y, rest)]
      | _, _ => []
      end
  | _ => []
  end.

Definition one (p : ascii → option Z) (s : string) : list (Z * string) :=
  match s with
  | String a rest => match p a with Some x => [(x, rest)] | None => [] end
  | _ => []
  end.

Definition lit (c : ascii) (s : string) : option string :=
  match s with
  | String a rest => if decide (a = c) then Some rest else None
  | _ => None
  end.

(** [(?P<Y>\d\d\d\d)] *)
Definition re_Y (s : string) : option (Z * string) :=
  match s with
  | String a (String b (String c (String d rest))) =>
      x ← digit_of a; y ← digit_of b; z ← digit_of c; w ← digit_of d;
      Some (1000 * x + 100 * y + 10 * z + w, rest)
  | _ => None
  end.

(** [(?P<m>1[0-2]|0[1-9]|[1-9])] *)
Definition re_m (s : string) : list (Z * string) :=
  two (in_range 1 1) (in_range 0 2) s
  ++ two (in_range 0 0) (in_range 1 9) s
  ++ one (in_range 1 9) s.

(** [(?P<d>3[0-1]|[1-2]\d|0[1-9]|[1-9]| [1-9])] *)
Definition re_d (s : string) : list (Z * string) :=
  two (in_range 3 3) (in_range 0 1) s
  ++ two (in_range 1 2) (in_range 0 9) s
  ++ two (in_range 0 0) (in_range 1 9) s
  ++ one (in_range 1 9) s
  ++ two blank (in_range 1 9) s.

(** Backtracking: the first alternative the rest of the pattern accepts. *)
Fixpoint first_match {A B} (alts : list A) (k : A → option B) : option B :=
  match alts with
  | [] => None
  | a :: alts => match k a with Some b => Some b | None => first_match alts k end
  end.

(** [format_regex.match(data_string)]: the three groups and the
    unmatched rest of the text. *)
Definition regex_match (s : string) : option (Z * Z * Z * string) :=
  '(y, s) ← re_Y s;
  s ← lit "-" s;
  first_match (re_m s) (λ '(m, s),
    s ← lit "-" s;
    first_match (re_d s) (λ '(d, s), Some (y, m, d, s))).

(** [datetime.strptime(data_string, "%Y-%m-%d")]; [None] is the
    [ValueError] of a text that does not match, of unconverted data
    left over, or of a date the calendar does not have. *)
Definition strptime (data_string : string) : option date :=
  '(y, m, d, rest) ← regex_match data_string;
  if decide (rest = "") then new_date y m d else None.

End Datetime.

Arguments Datetime.strptime : simpl never.
Arguments Datetime.isocalendar : simpl never.

(** ** Python's text functions the tracker calls *)

Module Text.

(** [str.isspace] on one character of ASCII. *)
Definition is_space (c : ascii) : bool :=
  let n := Z.of_N (N_of_ascii c) in
  ((9 <=? n) && (n <=? 13)) || ((28 <=? n) && (n <=? 32)).

Fixpoint lstrip (s : string) : string :=
  match s with
  | String c rest => if is_space c then lstrip rest else s
  | EmptyString => EmptyString
  end.

Fixpoint rstrip (s : string) : string :=
  match s with
  | String c rest =>
      let rest := rstrip rest in
      if is_space c && bool_decide (rest = "") then "" else String c rest
  | EmptyString => EmptyString
  end.

(** [str.strip()]. *)
Definition strip (s : string) : string := rstrip (lstrip s).

Definition lower_char (c : ascii) : ascii :=
  let n := N_of_ascii c in
  if ((65 <=? n) && (n <=? 90))%N then ascii_of_N (n + 32) else c.

(** [str.lower()], on ASCII letters. *)
Fixpoint lower (s : string) : string :=
  match s with
  | String c rest => String (lower_char c) (lower rest)
  | EmptyString => EmptyString
  end.

(** The digits of [int(text)]: decimal digits, single underscores
    allowed between two of them. *)
Fixpoint int_digits (acc : Z) (after_digit : bool) (s : string) : option Z :=
  match s with
  | EmptyString => if after_digit then Some acc else None
  | String c rest =>
      match Datetime.digit_of c with
      | Some d => int_digits (10 * acc + d) true rest
      | None =>
          if bool_decide (c = "_"%char) && after_digit
          then int_digits acc false rest
          else None
      end
  end.

(** [int(text)] in base ten; [None] is its [ValueError]. *)
Definition int (text : string) : option Z :=
  match strip text with
  | String c rest =>
      if bool_decide (c = "+"%char) then int_digits 0 false rest
      else if bool_decide (c = "-"%char) then Z.opp <$> int_digits 0 false rest
      else int_digits 0 false (String c rest)
  | EmptyString => None
  end.

Definition digit_char (v : Z) : ascii := ascii_of_N (Z.to_N (48 + v)).

(** A number in [w] decimal digits, zero-filled: [%m], [%d] and, where
    the C library pads it, [%Y] of [strftime]. *)
Fixpoint zfill (w : nat) (n : Z) : string :=
  match w with
  | O => EmptyString
  | S w' => String (digit_char ((n / 10 ^ Z.of_nat w') mod 10)) (zfill w' n)
  end.

(** [str(n)] of an integer, as an f-string prints it. *)
Definition str (n : Z) : string := pretty n.

(** [date.isoformat()]: the canonical text YYYY-MM-DD of a date. *)
Definition isoformat (d : Datetime.date) : string :=
  zfill 4 (Datetime.year d) +:+ "-" +:+ zfill 2 (Datetime.month d)
  +:+ "-" +:+ zfill 2 (Datetime.day d).

(** The calendar-date grammar of the specification, YYYY-MM-DD: four
    digits, a dash, two digits, a dash, two digits, that denote a date
    of the calendar. *)
Definition number (digits : list ascii) : option Z :=
  foldl (λ acc c, n ← acc; v ← Datetime.digit_of c; Some (10 * n + v)) (Some 0) digits.

Definition spec_ValidateDate (text : string) : bool :=
  match String.list_ascii_of_string text with
  | [y1; y2; y3; y4; dash1; m1; m2; dash2; d1; d2] =>
      bool_decide (dash1 = "-"%char) && bool_decide (dash2 = "-"%char)
      && match number [y1; y2; y3; y4], number [m1; m2], number [d1; d2] with
         | Some y, Some m, Some d => Datetime.check_date_fields y m d
         | _, _, _ => false
         end
  | _ => false
  end.

(** The ways [strptime] lets a month and a day be written: in two
    digits, zero-filled; in one digit when the number is less than ten;
    a day also as a blank and one digit. *)
Definition month_texts (m : Z) : list string :=
  zfill 2 m :: (if m <? 10 then [str m] else []).

Definition day_texts (d : Z) : list string :=
  zfill 2 d :: (if d <? 10 then [str d; " " +:+ str d] else []).

(** The texts that spell a date: the year in four digits, a dash, the
    month, a dash, the day. *)
Definition date_texts (d : Datetime.date) : list string :=
  m ← month_texts (Datetime.month d);
  dd ← day_texts (Datetime.day d);
  [zfill 4 (Datetime.year d) +:+ "-" +:+ m +:+ "-" +:+ dd].

(** A text of ASCII characters.  Outside ASCII, the [\d] of the pattern
    of [strptime] also takes the other decimal digits of Unicode. *)
Fixpoint is_ascii (s : string) : bool :=
  match s with
  | EmptyString => true
  | String c rest => (N_of_ascii c <? 128)%N && is_ascii rest
  end.

(** The strict lexical order of texts. *)
Definition lt (s1 s2 : string) : Prop := strict String.le s1 s2.

(** A text of decimal digits. *)
Fixpoint digits_only (s : string) : bool :=
  match s with
  | EmptyString => true
  | String c rest =>
      match Datetime.digit_of c with Some _ => digits_only rest | None => false end
  end.

End Text.

Arguments Text.strip : simpl never.
Arguments Text.int : simpl never.
Arguments Text.str : simpl never.

(** ** Amounts *)

(** What the tracker does with an amount: it starts sums from [0]
    ([sum(...)], [defaultdict(float)]) and adds with [+]. *)
Class Amount (A : Type) := {
  amount0 : A;
  amount_add : A → A → A;
}.

(** [float(text)]; [None] is its [ValueError]. *)
Class FloatOf (A : Type) := float_of : string → option A.

(** [sum(xs)]: the fold from [0]. *)
Definition py_sum `{Amount A} (xs : list A) : A := foldl amount_add amount0 xs.

(** ** Exceptions and results *)

Inductive exn :=
  | ValueError
  | KeyError (key : string)
  | TypeError
  | EOFError
  | FileNotFoundError
  | JSONDecodeError.

#[global] Instance exn_eq_dec : EqDecision exn.
Proof. solve_decision. Defined.

Inductive result (T : Type) :=
  | Ok (x : T)
  | Raise (e : exn).
Arguments Ok {T} x.
Arguments Raise {T} e.

#[global] Instance result_ret : MRet result := λ T x, Ok x.
#[global] Instance result_bind : MBind result := λ T U k r,
  match r with Ok x => k x | Raise e => Raise e end.
#[global] Instance result_fmap : FMap result := λ T U f r,
  match r with Ok x => Ok (f x) | Raise e => Raise e end.

(** [[f(x) for x in xs]], stopping at the first exception. *)
Fixpoint comprehension {T U} (f : T → result U) (xs : list T) : result (list U) :=
  match xs with
  | [] => Ok []
  | x :: xs => y ← f x; ys ← comprehension f xs; Ok (y :: ys)
  end.

(** ** Records, documents and the ledger *)

Section Tracker.
Context {A : Type} `{Amount A} `{FloatOf A}.

(** Whether the C library's [strftime] zero-fills [%Y] to four digits
    (glibc does not; the two behaviours agree from year 1000 on). *)
Variable libc_pads_year : bool.

(** [class Expense]. *)
Record Expense := mkExpense {
  amount : A;
  category : string;
  date : string;
}.

(** A parsed JSON document. *)
#[warnings="-register-all"]
Inductive json :=
  | JNull
  | JBool (b : bool)
  | JNum (a : A)
  | JStr (s : string)
  | JArr (items : list json)
  | JObj (members : gmap string json).

(** [Expense.to_dict]. *)
Definition to_dict (self : Expense) : json :=
  JObj (<["amount" := JNum (amount self)]>
       (<["category" := JStr (category self)]>
       (<["date" := JStr (date self)]> ∅))).

(** [data[key]]. *)
Definition getitem (data : json) (key : string) : result json :=
  match data with
  | JObj members =>
      match members !! key with Some v => Ok v | None => Raise (KeyError key) end
  | _ => Raise TypeError
  end.

(** The data model types [amount] as a number and [category] and [date]
    as text.  Python stores whatever the document holds and fails with a
    type error at the first use; the typed record reports it here.  What
    is stated of a load is stated of the documents whose entries are
    typed ([typed_entry]), which the two read alike. *)
Definition as_number (v : json) : result A :=
  match v with JNum a => Ok a | _ => Raise TypeError end.
Definition as_text (v : json) : result string :=
  match v with JStr s => Ok s | _ => Raise TypeError end.

(** [Expense.from_dict]: the three lookups, in the order written, then
    the constructor. *)
Definition from_dict (data : json) : result Expense :=
  a ← getitem data "amount";
  c ← getitem data "category";
  d ← getitem data "date";
  a ← as_number a; c ← as_text c; d ← as_text d;
  Ok (mkExpense a c d).

(** [for item in data]: the items of an array; the keys of an object;
    the characters of a string. *)
Fixpoint chars (s : string) : list json :=
  match s with
  | EmptyString => []
  | String c rest => JStr (String c EmptyString) :: chars rest
  end.

Definition iter (data : json) : result (list json) :=
  match data with
  | JArr items => Ok items
  | JObj members => Ok (JStr <$> (map_to_list members).*1)
  | JStr s => Ok (chars s)
  | _ => Raise TypeError
  end.

(** What [print] writes, one constructor for each message of the
    program; numbers and records are kept unformatted. *)
Inductive message :=
  | MsgInvalidDate                       (* Invalid date format. Please use YYYY-MM-DD. *)
  | MsgAdded (amount : A) (category date : string)
  | MsgInvalidAmount                     (* Invalid input, please enter a numeric amount. *)
  | MsgNoExpenses                        (* No expenses recorded yet. *)
  | MsgEnterNumber                       (* Invalid input, please enter a number. *)
  | MsgCategoryTotal (category : string) (total : A)
  | MsgOverallTotal (total : A)
  | MsgSkipping (date : string)          (* Skipping invalid date format: ... *)
  | MsgInvalidChoice                     (* Invalid choice *)
  | MsgSummaryHeader                     (* Spending over time summary: *)
  | MsgPeriod (period : string) (amount : A)
  | MsgChooseValid                       (* Please choose a valid option. *)
  | MsgLoaded (n : nat) (filename : string)
  | MsgNoPreviousData                    (* No previous data found. Starting fresh. *)
  | MsgCorrupt                           (* Data file is corrupt. Starting with an empty list. *)
  | MsgNoneToDelete
  | MsgListing (number : Z) (exp : Expense)
  | MsgDeleted (exp : Expense)
  | MsgInvalidSelection
  | MsgInvalidInput
  | MsgNoneToEdit
  | MsgEditing (exp : Expense)
  | MsgKeepingAmount                     (* Invalid amount. Keeping previous. *)
  | MsgKeepingDate                       (* Invalid date format. Keeping previous. *)
  | MsgUpdated                           (* Expense updated successfully. *)
  | MsgNoData                            (* No data for graphical summary. *)
  | MsgBarChart (totals : gmap string A) (* plt.bar(categories, amounts); plt.show() *)
  | MsgMenu
  | MsgGoodbye
  | MsgInvalidMenuChoice.

(** A file on disk: one whose text [json.load] parses to a document, or
    one whose text it rejects as not being JSON.  [json.dump] writes a
    text that [json.load] reads back as the document dumped. *)
Inductive file :=
  | Document (data : json)
  | Garbage (text : string).

(** The tracker object and the world around it. *)
Record state := mkState {
  expenses : list Expense;        (* self.expenses *)
  stdin : list string;            (* the lines input() will read *)
  stdout : list message;          (* what print() has written *)
  files : gmap string file;       (* the files of the working directory *)
  now : Datetime.date;            (* datetime.now() *)
}.

Definition set_expenses (l : list Expense) (st : state) : state :=
  mkState l (stdin st) (stdout st) (files st) (now st).
Definition set_stdin (l : list string) (st : state) : state :=
  mkState (expenses st) l (stdout st) (files st) (now st).
Definition set_stdout (l : list message) (st : state) : state :=
  mkState (expenses st) (stdin st) l (files st) (now st).
Definition set_files (fs : gmap string file) (st : state) : state :=
  mkState (expenses st) (stdin st) (stdout st) fs (now st).

(** Statements: a state transformer that returns or raises. *)
Definition M (T : Type) : Type := state → result T * state.

#[global] Instance M_ret : MRet M := λ T x st, (Ok x, st).
#[global] Instance M_bind : MBind M := λ T U k m st,
  match m st with
  | (Ok x, st) => k x st
  | (Raise e, st) => (Raise e, st)
  end.

Definition raise {T} (e : exn) : M T := λ st, (Raise e, st).
Definition lift {T} (r : result T) : M T := λ st, (r, st).
Definition gets {T} (f : state → T) : M T := λ st, (Ok (f st), st).
Definition modify (f : state → state) : M unit := λ st, (Ok tt, f st).

(** [try: body except E1: h1 except E2: h2 ...]: [handlers] gives the
    clause that catches an exception, if one does. *)
Definition try_except {T} (body : M T) (handlers : exn → option (M T)) : M T :=
  λ st, match body st with
        | (Raise e, st') =>
            match handlers e with Some h => h st' | None => (Raise e, st') end
        | r => r
        end.

Definition print (m : message) : M unit :=
  modify (λ st, set_stdout (stdout st ++ [m]) st).

Fixpoint print_all (ms : list message) : M unit :=
  match ms with
  | [] => mret tt
  | m :: ms => print m;; print_all ms
  end.

(** [input(prompt)]: the next line, or [EOFError] at the end of input.
    The prompt is not recorded. *)
Definition input : M string := λ st,
  match stdin st with
  | [] => (Raise EOFError, st)
  | line :: rest => (Ok line, set_stdin rest st)
  end.

(** A text is true when it is not empty. *)
Definition nonempty (s : string) : bool :=
  match s with EmptyString => false | _ => true end.

(** [float(text)] and [int(text)] as statements. *)
Definition float (text : string) : M A :=
  match float_of text with Some a => mret a | None => raise ValueError end.
Definition int (text : string) : M Z :=
  match Text.int text with Some n => mret n | None => raise ValueError end.

(** *** [strftime] *)

Definition strftime_Y (y : Z) : string :=
  if libc_pads_year then Text.zfill 4 y else Text.str y.

(** [strftime("%Y-%m")] and [strftime("%Y-%m-%d")]. *)
Definition strftime_Ym (d : Datetime.date) : string :=
  strftime_Y (Datetime.year d) +:+ "-" +:+ Text.zfill 2 (Datetime.month d).
Definition strftime_Ymd (d : Datetime.date) : string :=
  strftime_Ym d +:+ "-" +:+ Text.zfill 2 (Datetime.day d).

(** *** [class ExpenseTracker] *)

(** [validate_date]: true unless [strptime] raises [ValueError]. *)
Definition validate_date (date_str : string) : bool :=
  match Datetime.strptime date_str with Some _ => true | None => false end.

(** [save_to_file]: the whole ledger, rewritten. *)
Definition save_to_file (filename : string) : M unit :=
  expenses ← gets expenses;
  modify (λ st,
    set_files (<[filename := Document (JArr (to_dict <$> expenses))]> (files st)) st).

(** [load_from_file]. *)
Definition load_from_file (filename : string) : M unit :=
  try_except
    (fs ← gets files;
     match fs !! filename with
     | None => raise FileNotFoundError
     | Some (Garbage _) => raise JSONDecodeError
     | Some (Document data) =>
         items ← lift (iter data);
         loaded ← lift (comprehension from_dict items);
         modify (set_expenses loaded);;
         print (MsgLoaded (length loaded) filename)
     end)
    (λ e, match e with
          | FileNotFoundError => Some (print MsgNoPreviousData)
          | JSONDecodeError => Some (print MsgCorrupt)
          | _ => None
          end).

(** [add_expenses]. *)
Definition add_expenses : M unit :=
  try_except
    (text ← input;
     amount ← float (Text.strip text);
     text ← input;
     let category := Text.strip text in
     text ← input;
     let date := Text.strip text in
     today ← gets now;
     let date := if nonempty date then date else strftime_Ymd today in
     if negb (validate_date date) then
       print MsgInvalidDate
     else
       let expense := mkExpense amount category date in
       modify (λ st, set_expenses (expenses st ++ [expense]) st);;
       print (MsgAdded amount category date);;
       save_to_file "expenses.json")
    (λ e, match e with
          | ValueError => Some (print MsgInvalidAmount)
          | _ => None
          end).

(** The three aggregations of [view_summary]. *)
Definition total_for_category (category0 : string) (expenses : list Expense) : A :=
  py_sum (amount <$> filter
    (λ exp, Text.lower (category exp) = Text.lower category0) expenses).

Definition total_overall (expenses : list Expense) : A :=
  py_sum (amount <$> expenses).

(** [summary[key] += amount] on a [defaultdict(float)]. *)
Definition add_to (key : string) (a : A) (summary : gmap string A) : gmap string A :=
  <[key := amount_add (default amount0 (summary !! key)) a]> summary.

(** The bucket key of a record; [None] when the choice is none of 1, 2, 3. *)
Definition time_key (time_choice : Z) (expense : Expense) (date_obj : Datetime.date)
  : option string :=
  if time_choice =? 1 then Some (date expense)
  else if time_choice =? 2 then Some (strftime_Ym date_obj)
  else if time_choice =? 3 then
    let year := Datetime.year date_obj in
    let week := (Datetime.isocalendar date_obj).1.2 in
    Some (Text.str year +:+ "-W" +:+ Text.str week)
  else None.

(** The loop over the ledger; [None] is the [return] after "Invalid choice". *)
Fixpoint summary_loop (time_choice : Z) (expenses : list Expense)
    (summary : gmap string A) : M (option (gmap string A)) :=
  match expenses with
  | [] => mret (Some summary)
  | expense :: rest =>
      if negb (validate_date (date expense)) then
        print (MsgSkipping (date expense));;
        summary_loop time_choice rest summary
      else
        match Datetime.strptime (date expense) with
        | None => raise ValueError
        | Some date_obj =>
            match time_key time_choice expense date_obj with
            | None => print MsgInvalidChoice;; mret None
            | Some key =>
                summary_loop time_choice rest (add_to key (amount expense) summary)
            end
        end
  end.

(** What the loop amounts to for a choice among 1, 2 and 3 (see
    [summary_loop_run]): the records with a valid date, each as its key
    and amount; the dictionary after [d[key] += amount] for each of them
    in order; and the dates reported as skipped. *)
Definition bucket_key (time_choice : Z) (expense : Expense) : option string :=
  date_obj ← Datetime.strptime (date expense);
  time_key time_choice expense date_obj.

Definition bucketed (time_choice : Z) (expense : Expense) : option (string * A) :=
  key ← bucket_key time_choice expense;
  Some (key, amount expense).

Definition tally (pairs : list (string * A)) (d : gmap string A) : gmap string A :=
  foldl (λ d p, add_to p.1 p.2 d) d pairs.

Definition time_bucketed_summary (time_choice : Z) (expenses : list Expense)
  : gmap string A :=
  tally (omap (bucketed time_choice) expenses) ∅.

Definition skipped (expenses : list Expense) : list message :=
  (λ e, MsgSkipping (date e)) <$> filter (λ e, validate_date (date e) = false) expenses.

(** [sorted(summary.items())]: the keys of a dictionary differ, so the
    order of two items is the order of their keys. *)
Definition item_le (x y : string * A) : Prop := String.le x.1 y.1.

#[local] Instance item_le_dec : RelDecision item_le.
Proof. intros x y. unfold item_le. apply _. Defined.

Definition sorted_items (summary : gmap string A) : list (string * A) :=
  merge_sort item_le (map_to_list summary).

(** [view_summary]. *)
Definition view_summary : M unit :=
  self_expenses ← gets expenses;
  if bool_decide (length self_expenses = 0%nat) then print MsgNoExpenses
  else
    choice ← try_except
      (text ← input; choice ← int (Text.strip text); mret (Some choice))
      (λ e, match e with
            | ValueError => Some (print MsgEnterNumber;; mret None)
            | _ => None
            end);
    match choice with
    | None => mret tt
    | Some choice =>
        if choice =? 1 then
          text ← input;
          let category := Text.strip text in
          print (MsgCategoryTotal category (total_for_category category self_expenses))
        else if choice =? 2 then
          print (MsgOverallTotal (total_overall self_expenses))
        else if choice =? 3 then
          time_choice ← try_except
            (text ← input; choice ← int (Text.strip text); mret (Some choice))
            (λ e, match e with
                  | ValueError => Some (print MsgEnterNumber;; mret None)
                  | _ => None
                  end);
          match time_choice with
          | None => mret tt
          | Some time_choice =>
              summary ← summary_loop time_choice self_expenses ∅;
              match summary with
              | None => mret tt
              | Some summary =>
                  print MsgSummaryHeader;;
                  print_all ((λ item, MsgPeriod item.1 item.2) <$> sorted_items summary)
              end
          end
        else print MsgChooseValid
    end.

(** The numbered listing [delete_expense] and [edit_expense] print. *)
Definition listing (expenses : list Expense) : list message :=
  imap (λ idx exp, MsgListing (Z.of_nat idx + 1) exp) expenses.

(** [delete_expense]. *)
Definition delete_expense : M unit :=
  self_expenses ← gets expenses;
  if bool_decide (length self_expenses = 0%nat) then print MsgNoneToDelete
  else
    print_all (listing self_expenses);;
    try_except
      (text ← input;
       choice ← int (Text.strip text);
       if (1 <=? choice) && (choice <=? Z.of_nat (length self_expenses)) then
         match self_expenses !! Z.to_nat (choice - 1) with
         | None => mret tt
         | Some removed =>
             modify (λ st, set_expenses (delete (Z.to_nat (choice - 1)) (expenses st)) st);;
             print (MsgDeleted removed);;
             save_to_file "expenses.json"
         end
       else print MsgInvalidSelection)
      (λ e, match e with
            | ValueError => Some (print MsgInvalidInput)
            | _ => None
            end).

(** Assignments to the fields of the record at position [i] of the ledger. *)
Definition assign (i : nat) (f : Expense → Expense) : M unit :=
  modify (λ st, set_expenses (alter f i (expenses st)) st).
Definition with_amount (a : A) (e : Expense) : Expense :=
  mkExpense a (category e) (date e).
Definition with_category (c : string) (e : Expense) : Expense :=
  mkExpense (amount e) c (date e).
Definition with_date (d : string) (e : Expense) : Expense :=
  mkExpense (amount e) (category e) d.

(** [edit_expense]. *)
Definition edit_expense : M unit :=
  self_expenses ← gets expenses;
  if bool_decide (length self_expenses = 0%nat) then print MsgNoneToEdit
  else
    print_all (listing self_expenses);;
    try_except
      (text ← input;
       choice ← int (Text.strip text);
       if (1 <=? choice) && (choice <=? Z.of_nat (length self_expenses)) then
         let i := Z.to_nat (choice - 1) in
         match self_expenses !! i with
         | None => mret tt
         | Some expense =>
             print (MsgEditing expense);;
             text ← input;
             let new_amount := Text.strip text in
             text ← input;
             let new_category := Text.strip text in
             text ← input;
             let new_date := Text.strip text in
             (if nonempty new_amount then
                try_except
                  (a ← float new_amount; assign i (with_amount a))
                  (λ e, match e with
                        | ValueError => Some (print MsgKeepingAmount)
                        | _ => None
                        end)
              else mret tt);;
             (if nonempty new_category then assign i (with_category new_category)
              else mret tt);;
             (if nonempty new_date then
                if validate_date new_date then assign i (with_date new_date)
                else print MsgKeepingDate
              else mret tt);;
             save_to_file "expenses.json";;
             print MsgUpdated
         end
       else print MsgInvalidSelection)
      (λ e, match e with
            | ValueError => Some (print MsgInvalidInput)
            | _ => None
            end).

(** The totals [graphical_summary] hands to the chart. *)
Definition category_totals (expenses : list Expense) : gmap string A :=
  foldl (λ totals exp, add_to (category exp) (amount exp) totals) ∅ expenses.

(** [graphical_summary]; the chart is a sink that receives the pairs of
    category and total, the order of the bars left out. *)
Definition graphical_summary : M unit :=
  self_expenses ← gets expenses;
  if bool_decide (length self_expenses = 0%nat) then print MsgNoData
  else print (MsgBarChart (category_totals self_expenses)).

(** The menu loop.  Each turn reads at least one line, so [fuel] turns
    are enough for an input of fewer than [fuel] lines; the result is
    [true] when the loop left through "6" and [false] when the turns ran
    out first. *)
Fixpoint menu_loop (fuel : nat) : M bool :=
  match fuel with
  | O => mret false
  | S fuel =>
      print MsgMenu;;
      text ← input;
      let choice := Text.strip text in
      if bool_decide (choice = "1") then add_expenses;; menu_loop fuel
      else if bool_decide (choice = "2") then view_summary;; menu_loop fuel
      else if bool_decide (choice = "3") then edit_expense;; menu_loop fuel
      else if bool_decide (choice = "4") then delete_expense;; menu_loop fuel
      else if bool_decide (choice = "5") then graphical_summary;; menu_loop fuel
      else if bool_decide (choice = "6") then print MsgGoodbye;; mret true
      else print MsgInvalidMenuChoice;; menu_loop fuel
  end.

(** The program: a fresh tracker loads the data file, then runs the menu.
    An exception that reaches this level ends the process. *)
Definition main (fuel : nat) : M bool :=
  modify (set_expenses []);;
  load_from_file "expenses.json";;
  menu_loop fuel.

End Tracker.

Arguments Expense A : clear implicits.
Arguments json A : clear implicits.
Arguments message A : clear implicits.
Arguments file A : clear implicits.
Arguments state A : clear implicits.
Arguments M A T : clear implicits.
Arguments validate_date : simpl never.
Arguments strftime_Ymd : simpl never.
Arguments strftime_Ym : simpl never.

(** ** Two kinds of amount *)

(** Python's [float]: binary64 with round-to-nearest addition. *)
#[global] Instance float_amount : Amount PrimFloat.float := {
  amount0 := 0%float;
  amount_add := PrimFloat.add;
}.

(** Whole amounts, with [float] reading decimal integers: a stand-in for
    the amounts in the runs of the statements that do not turn on how
    [float] reads a text or on how [+] rounds. *)
#[global] Instance Z_amount : Amount Z := {
  amount0 := 0;
  amount_add := Z.add;
}.
#[global] Instance Z_float_of : FloatOf Z := Text.int.

(** ** What the properties are stated with *)

Section Statements.
Context {A : Type} `{Amount A} `{FloatOf A}.
Variable libc_pads_year : bool.

(** A statement preserves a relation between states when, whatever it
    returns or raises, the state it ends in is related to the one it
    started from. *)
Definition preserves {T} (R : relation (state A)) (m : M A T) : Prop :=
  ∀ st, R st (m st).2.

(** The ledger and the files are unchanged. *)
Definition same_ledger (st st' : state A) : Prop :=
  expenses st' = expenses st ∧ files st' = files st.

(** No input has been added. *)
Definition input_shorter (st st' : state A) : Prop :=
  (length (stdin st') ≤ length (stdin st))%nat.

(** The date [add_expenses] goes on with: the text typed, or today. *)
Definition date_entered (st : state A) (date_text : string) : string :=
  if nonempty (Text.strip date_text) then Text.strip date_text
  else strftime_Ymd libc_pads_year (now st).

(** The record an edit leaves at the selected position: each field is
    the new one when it was typed and is acceptable, the old one
    otherwise. *)
Definition edited (e : Expense A) (new_amount new_category new_date : string)
  : Expense A :=
  mkExpense
    (if nonempty new_amount then default (amount e) (float_of new_amount)
     else amount e)
    (if nonempty new_category then new_category else category e)
    (if nonempty new_date && validate_date new_date then new_date else date e).

(** What an edit reports besides the listing: a refused amount, a
    refused date. *)
Definition edit_reports (new_amount new_date : string) : list (message A) :=
  (if nonempty new_amount then
     match float_of new_amount with Some _ => [] | None => [MsgKeepingAmount] end
   else [])
  ++ (if nonempty new_date && negb (validate_date new_date) then [MsgKeepingDate]
      else []).

(** The three choices of granularity. *)
Definition granularity (time_choice : Z) : Prop :=
  time_choice = 1 ∨ time_choice = 2 ∨ time_choice = 3.

(** Grouping without regard to case: no two keys of the totals differ
    only in the case of their letters. *)
Definition case_insensitive_grouping (l : list (Expense A)) : Prop :=
  ∀ k1 k2,
    is_Some (category_totals l !! k1) → is_Some (category_totals l !! k2) →
    Text.lower k1 = Text.lower k2 → k1 = k2.

(** Keys in lexical order hold dates in the order of time: a record
    whose key is strictly before the key of another is dated strictly
    before it. *)
Definition chronological (time_choice : Z) (l : list (Expense A)) : Prop :=
  ∀ e1 e2 d1 d2 k1 k2,
    e1 ∈ l → e2 ∈ l →
    Datetime.strptime (date e1) = Some d1 →
    Datetime.strptime (date e2) = Some d2 →
    time_key libc_pads_year time_choice e1 d1 = Some k1 →
    time_key libc_pads_year time_choice e2 d2 = Some k2 →
    Text.lt k1 k2 →
    Datetime.toordinal d1 < Datetime.toordinal d2.

(** The ledgers on which the keys are zero-filled: every year printed
    in four digits, and every date written in its canonical text. *)
Definition four_digit_years (l : list (Expense A)) : Prop :=
  libc_pads_year = true
  ∨ Forall (λ e, ∀ d, Datetime.strptime (date e) = Some d → 1000 ≤ Datetime.year d) l.

Definition canonical_dates (l : list (Expense A)) : Prop :=
  Forall (λ e, ∀ d, Datetime.strptime (date e) = Some d → date e = Text.isoformat d) l.

End Statements.

(** ** Sample ledgers and files *)

(** A ledger of whole amounts, used to run the statements. *)
Definition sample_ledger : list (Expense Z) :=
  [mkExpense 100 "Food" "2024-01-01"; mkExpense 50 "food" "2024-03-04";
   mkExpense 25 "Rent" "2024-01-08"].

Definition sample_state (inputs : list string) : state Z :=
  mkState sample_ledger inputs [] ∅ (Datetime.Date 2026 11 3).

(** A ledger of binary64 amounts: 0.1 on the second of January, 0.1 and
    1.1 on the first. *)
Definition float_ledger : list (Expense PrimFloat.float) :=
  [mkExpense 0x1.999999999999ap-4%float "Tea" "2024-01-02";
   mkExpense 0x1.999999999999ap-4%float "Tea" "2024-01-01";
   mkExpense 0x1.199999999999ap+0%float "Bus" "2024-01-01"].

(** A data file that is valid JSON, with one entry that has no date:
    [[{"amount": 5, "category": "Food"}]]. *)
Definition entry_without_date : json Z :=
  JObj (<["amount" := JNum 5]> (<["category" := JStr "Food"]> ∅)).

Definition files_with_malformed_entry : gmap string (file Z) :=
  {["expenses.json" := Document (JArr [entry_without_date])]}.



(** ** Invariants of the ledger and the data file *)

Section Invariants.
Context {A : Type} `{Amount A}.

(** Every date of the ledger passes [validate_date]. *)
Definition dates_valid (st : state A) : Prop :=
  Forall (λ e, validate_date (date e) = true) (expenses st).

Definition dates_stay_valid (st st' : state A) : Prop :=
  dates_valid st → dates_valid st'.

(** The data file holds the ledger, as [save_to_file] writes it. *)
Definition synced (st : state A) : Prop :=
  files st !! "expenses.json" = Some (Document (JArr (to_dict <$> expenses st))).

(** A statement either leaves the ledger and the files alone or ends
    with the ledger saved. *)
Definition saved_or_same (st st' : state A) : Prop :=
  same_ledger st st' ∨ synced st'.

(** The exceptions reading a document raises: a missing key, a value of
    the wrong type. *)
Definition key_or_type_error (e : exn) : Prop :=
  e = TypeError ∨ ∃ key, e = KeyError key.

(** What a restart of the program would find: the data file reads back
    as the ledger in memory, or there is no readable data file and the
    ledger is empty. *)
Definition persisted (st : state A) : Prop :=
  match files st !! "expenses.json" with
  | Some (Document data) =>
      iter data ≫= comprehension from_dict = Ok (expenses st)
  | _ => expenses st = []
  end.




End Invariants.

(** A ledger as a data file written by hand may hold it: the date of
    its first record is no date. *)
Definition ledger_with_invalid_date : list (Expense Z) :=
  [mkExpense 5 "Tea" "yesterday"; mkExpense 100 "Food" "2024-01-01"].

(** ** Additions that do not round *)

Section Rounding.
Context {A : Type} `{Amount A}.

(** [value] gives the exact value of an amount as a whole number of
    units.  The additions do not round on the amounts of [ok], within
    [bound]: [0] is one of them; the sum of two of them whose sizes add up
    to no more than [bound] is one of them and has the sum of their
    values; and each of them is determined by its value. *)
Record exact_within (value : A → Z) (ok : A → Prop) (bound : Z) : Prop := {
  exact_zero : ok amount0 ∧ value amount0 = 0;
  exact_add : ∀ a b,
    ok a → ok b → Z.abs (value a) + Z.abs (value b) ≤ bound →
    ok (amount_add a b) ∧ value (amount_add a b) = value a + value b;
  exact_inj : ∀ a b, ok a → ok b → value a = value b → a = b;
}.

(** The sum of [f] over a list, and the size of a list of amounts: the
    sum of the absolute values. *)
Definition sumZ {T} (f : T → Z) (xs : list T) : Z :=
  foldr (λ x n, f x + n) 0 xs.

Definition size (value : A → Z) (xs : list A) : Z :=
  sumZ (λ a, Z.abs (value a)) xs.

(** The amounts of a ledger are added without rounding, in whatever
    order and grouping. *)
Definition adds_exactly (value : A → Z) (ok : A → Prop) (bound : Z)
    (l : list (Expense A)) : Prop :=
  exact_within value ok bound
  ∧ Forall (λ e, ok (amount e)) l
  ∧ size value (amount <$> l) ≤ bound.

End Rounding.

(** *** Binary64

    The exact value of a binary64 number, in units of 2^-1074, the least
    positive one; 0 for the infinities and nan. *)
Definition SF_value (x : spec_float) : Z :=
  match x with
  | S754_finite s m e => (if s then - Z.pos m else Z.pos m) * 2 ^ (e + 1074)
  | _ => 0
  end.

Definition float_value (x : PrimFloat.float) : Z := SF_value (Prim2SF x).

(** The binary64 number of a whole number: the nearest one. *)
Definition SF_of_Z (n : Z) : spec_float := binary_normalize prec emax n 0 false.

(** A binary64 number that is a whole number below 2^53 in absolute
    value. *)
Definition whole_amount (x : PrimFloat.float) : Prop :=
  ∃ n, Z.abs n < 2 ^ 53 ∧ Prim2SF x = SF_of_Z n.

(** A ledger of whole amounts whose absolute values add up to less than
    2^53. *)
Definition whole_ledger (l : list (Expense PrimFloat.float)) : Prop :=
  ∃ ns : list Z,
    Forall2 (λ e n, Prim2SF (amount e) = SF_of_Z n) l ns
    ∧ sumZ Z.abs ns < 2 ^ 53.

(** The sizes, in units of 2^-1074, within which whole amounts add
    without rounding. *)
Definition whole_bound : Z := (2 ^ 53 - 1) * 2 ^ 1074.

(** A ledger of whole amounts. *)
Definition round_ledger : list (Expense PrimFloat.float) :=
  [mkExpense 100%float "Food" "2024-01-01"; mkExpense 50%float "food" "2024-03-04";
   mkExpense 25%float "Rent" "2024-01-08"].

(** ** The files the model reads as the code does *)

Section Typed.
Context {A : Type}.

(** An entry that has the three keys holds a number under "amount" and
    texts under "category" and "date": [from_dict] itself checks no type,
    and stores whatever the entry holds. *)
Definition typed_entry (item : json A) : Prop :=
  match item with
  | JObj members =>
      ∀ a c d,
        members !! "amount" = Some a → members !! "category" = Some c →
        members !! "date" = Some d →
        (∃ x, a = JNum x) ∧ (∃ s, c = JStr s) ∧ (∃ s, d = JStr s)
  | _ => True
  end.

(** A document of such entries; or a text of ASCII characters, which
    [open] decodes whatever the encoding of the locale is. *)
Definition read_as_the_code_does (f : file A) : Prop :=
  match f with
  | Document data => ∀ items, iter data = Ok items → Forall typed_entry items
  | Garbage text => Text.is_ascii text = true
  end.

End Typed.


(** * Properties *)

(** Unfolds the statements of a method down to the state they build. *)
Ltac run :=
  unfold try_except, mbind, M_bind, mret, M_ret, input, float, int, print,
    save_to_file, assign, modify, gets, raise, lift;
  simpl.

(** ** Texts and their order *)

Section TextOrder.
Import Text.

Lemma append_cons (c : ascii) (r s : string) :
  String c r +:+ s = String c (r +:+ s).
Proof. reflexivity. Qed.

Lemma append_nil_r (s : string) : s +:+ "" = s.
Proof. induction s as [|c s IH]; [done|]. by rewrite append_cons, IH. Qed.

Lemma append_assoc (r s t : string) : (r +:+ s) +:+ t = r +:+ (s +:+ t).
Proof. induction r as [|c r IH]; [done|]. by rewrite !append_cons, IH. Qed.

(** The strict order, through [String.compare]. *)
Lemma lt_compare (s1 s2 : string) : Text.lt s1 s2 ↔ String.compare s1 s2 = Lt.
Proof.
  unfold Text.lt, strict, String.le, String.leb.
  rewrite (String.compare_antisym s1 s2).
  destruct (String.compare s2 s1); cbn; split; (done || tauto || intros [??]; done).
Qed.

Lemma compare_digit_char (x y : Z) :
  0 ≤ x ≤ 9 → 0 ≤ y ≤ 9 →
  Ascii.compare (digit_char x) (digit_char y) = (x ?= y).
Proof.
  intros Hx Hy. unfold Ascii.compare, digit_char.
  rewrite !N_ascii_embedding by lia.
  rewrite Z2N.inj_compare by lia.
  apply Z.add_compare_mono_l.
Qed.

(** A number compares as its leading digit, then the rest. *)
Lemma compare_lex (p da db ra rb : Z) :
  0 ≤ ra < p → 0 ≤ rb < p →
  (ra + p * da ?= rb + p * db) =
    match da ?= db with Eq => ra ?= rb | c => c end.
Proof.
  intros Hra Hrb. destruct (da ?= db) eqn:Hd.
  - apply Z.compare_eq_iff in Hd as ->.
    rewrite !(Z.add_comm _ (p * db)). apply Z.add_compare_mono_l.
  - rewrite Z.compare_lt_iff in Hd. apply Z.compare_lt_iff.
    assert (p * 1 ≤ p * (db - da)) as Hstep
      by (apply Z.mul_le_mono_nonneg_l; lia).
    rewrite Z.mul_sub_distr_l in Hstep. lia.
  - rewrite Z.compare_gt_iff in Hd. apply Z.compare_gt_iff.
    assert (p * 1 ≤ p * (da - db)) as Hstep
      by (apply Z.mul_le_mono_nonneg_l; lia).
    rewrite Z.mul_sub_distr_l in Hstep. lia.
Qed.

(** Zero-filled numbers compare as the numbers they print. *)
Lemma compare_zfill_mod (w : nat) (a b : Z) (s t : string) :
  String.compare (zfill w a +:+ s) (zfill w b +:+ t) =
    match a mod 10 ^ Z.of_nat w ?= b mod 10 ^ Z.of_nat w with
    | Eq => String.compare s t
    | c => c
    end.
Proof.
  induction w as [|w IH].
  - cbn [zfill]. change (10 ^ Z.of_nat 0) with 1. by rewrite !Z.mod_1_r.
  - cbn [zfill]. rewrite !append_cons. cbn [String.compare].
    assert (0 < 10 ^ Z.of_nat w) as Hp by (apply Z.pow_pos_nonneg; lia).
    replace (10 ^ Z.of_nat (S w)) with (10 ^ Z.of_nat w * 10)
      by (rewrite Nat2Z.inj_succ, Z.pow_succ_r; lia).
    rewrite !Z.rem_mul_r by lia.
    rewrite compare_lex by (apply Z.mod_pos_bound; lia).
    rewrite compare_digit_char, IH
      by (pose proof (Z.mod_pos_bound (a / 10 ^ Z.of_nat w) 10);
          pose proof (Z.mod_pos_bound (b / 10 ^ Z.of_nat w) 10); lia).
    repeat match goal with
    | |- context [Z.compare ?x ?y] => destruct (Z.compare x y)
    end; reflexivity.
Qed.

Lemma compare_zfill (w : nat) (a b : Z) (s t : string) :
  0 ≤ a < 10 ^ Z.of_nat w → 0 ≤ b < 10 ^ Z.of_nat w →
  String.compare (zfill w a +:+ s) (zfill w b +:+ t) =
    match a ?= b with Eq => String.compare s t | c => c end.
Proof.
  intros Ha Hb. rewrite compare_zfill_mod.
  by rewrite !Z.mod_small by done.
Qed.

Lemma compare_dash (s t : string) :
  String.compare ("-" +:+ s) ("-" +:+ t) = String.compare s t.
Proof. reflexivity. Qed.

(** From year 1000 on, a year prints the same padded or not. *)
Lemma str_zfill_4 (y : Z) : 1000 ≤ y ≤ 9999 → Text.str y = zfill 4 y.
Proof.
  intros Hy.
  assert (Forall (λ y, Text.str y = zfill 4 y) (seqZ 1000 9000)) as Hall.
  { apply (bool_decide_unpack _). vm_compute. exact I. }
  rewrite Forall_forall in Hall. apply Hall.
  apply elem_of_seqZ. lia.
Qed.

End TextOrder.

(** ** The calendar *)

Section Calendar.
Import Datetime.

Lemma days_before_year_succ (y : Z) :
  days_before_year (y + 1) = days_before_year y + 365 + (if is_leap y then 1 else 0).
Proof.
  unfold days_before_year, is_leap.
  replace (y + 1 - 1) with y by lia.
  destruct (y mod 4 =? 0) eqn:H4; destruct (y mod 100 =? 0) eqn:H100;
    destruct (y mod 400 =? 0) eqn:H400; cbn [andb orb negb];
    apply Z.eqb_eq in H4 || apply Z.eqb_neq in H4;
    apply Z.eqb_eq in H100 || apply Z.eqb_neq in H100;
    apply Z.eqb_eq in H400 || apply Z.eqb_neq in H400;
    Z.div_mod_to_equations; lia.
Qed.

Lemma year_length (y : Z) :
  365 ≤ days_before_year (y + 1) - days_before_year y ≤ 366.
Proof. rewrite days_before_year_succ. destruct (is_leap y); lia. Qed.

(** A date the constructor accepts lies within its year. *)
Lemma ymd2ord_within_year (y m d : Z) :
  1 ≤ m ≤ 12 → 1 ≤ d ≤ days_in_month y m →
  days_before_year y < ymd2ord y m d ≤ days_before_year (y + 1).
Proof.
  intros Hm. rewrite days_before_year_succ.
  unfold ymd2ord, days_before_month, days_in_month.
  assert (m = 1 ∨ m = 2 ∨ m = 3 ∨ m = 4 ∨ m = 5 ∨ m = 6 ∨ m = 7 ∨ m = 8
          ∨ m = 9 ∨ m = 10 ∨ m = 11 ∨ m = 12) as Hcases by lia.
  destruct (is_leap y);
    repeat (destruct Hcases as [-> | Hcases]); try subst m;
    repeat (progress (try vm_compute (default _ _); try vm_compute (_ && _)));
    cbv iota; lia.
Qed.

Lemma check_date_fields_true (y m d : Z) :
  check_date_fields y m d = true ↔
  (MINYEAR ≤ y ≤ MAXYEAR) ∧ (1 ≤ m ≤ 12) ∧ (1 ≤ d ≤ days_in_month y m).
Proof. unfold check_date_fields. rewrite !andb_true_iff, !Z.leb_le. lia. Qed.

Lemma strptime_check_date_fields (s : string) (d : date) :
  strptime s = Some d → check_date_fields (year d) (month d) (day d) = true.
Proof.
  unfold strptime. destruct (regex_match s) as [[[[y m] dd] rest]|]; [|done].
  cbn. destruct (decide (rest = "")); [|done].
  unfold new_date. destruct (check_date_fields y m dd) eqn:Hc; [|done].
  by intros [= <-].
Qed.

Lemma days_before_year_mono (y y' : Z) :
  y ≤ y' → days_before_year y ≤ days_before_year y'.
Proof. intros Hy. unfold days_before_year. Z.div_mod_to_equations. lia. Qed.

(** Within a year, a later month starts after the earlier month ends. *)
Lemma days_before_month_lt (y m1 m2 : Z) :
  1 ≤ m1 → m1 < m2 → m2 ≤ 12 →
  days_before_month y m1 + days_in_month y m1 ≤ days_before_month y m2.
Proof.
  intros H1 Hlt H2. unfold days_before_month, days_in_month.
  assert (m1 = 1 ∨ m1 = 2 ∨ m1 = 3 ∨ m1 = 4 ∨ m1 = 5 ∨ m1 = 6 ∨ m1 = 7
          ∨ m1 = 8 ∨ m1 = 9 ∨ m1 = 10 ∨ m1 = 11) as Hm1 by lia.
  assert (m2 = 2 ∨ m2 = 3 ∨ m2 = 4 ∨ m2 = 5 ∨ m2 = 6 ∨ m2 = 7
          ∨ m2 = 8 ∨ m2 = 9 ∨ m2 = 10 ∨ m2 = 11 ∨ m2 = 12) as Hm2 by lia.
  destruct (is_leap y);
    repeat (destruct Hm1 as [-> | Hm1]); try subst m1;
    repeat (destruct Hm2 as [-> | Hm2]); try subst m2;
    try lia;
    repeat (progress (try vm_compute (default _ _); try vm_compute (_ && _)));
    cbv iota; lia.
Qed.

(** Dates in the order of their fields are in the order of their days. *)
Lemma toordinal_lt (d1 d2 : date) :
  check_date_fields (year d1) (month d1) (day d1) = true →
  check_date_fields (year d2) (month d2) (day d2) = true →
  year d1 < year d2
  ∨ (year d1 = year d2
     ∧ (month d1 < month d2 ∨ (month d1 = month d2 ∧ day d1 < day d2))) →
  toordinal d1 < toordinal d2.
Proof.
  intros (_ & Hm1 & Hd1)%check_date_fields_true
         (_ & Hm2 & Hd2)%check_date_fields_true Hlex.
  destruct d1 as [y1 m1 dd1], d2 as [y2 m2 dd2]. cbn [year month day] in *.
  unfold toordinal. cbn [year month day].
  destruct Hlex as [Hy | [-> [Hm | [-> Hd]]]].
  - pose proof (ymd2ord_within_year y1 m1 dd1 Hm1 Hd1).
    pose proof (ymd2ord_within_year y2 m2 dd2 Hm2 Hd2).
    pose proof (days_before_year_mono (y1 + 1) y2 ltac:(lia)). lia.
  - pose proof (days_before_month_lt y2 m1 m2 ltac:(lia) Hm ltac:(lia)).
    unfold ymd2ord. lia.
  - unfold ymd2ord. lia.
Qed.

(** The first Thursday is the Thursday among the first seven days. *)
Lemma first_thursday_spec (y : Z) :
  days_before_year y + 1 ≤ first_thursday y ≤ days_before_year y + 7
  ∧ weekday (first_thursday y) = 3.
Proof.
  unfold first_thursday, ymd2ord, weekday. cbn [fmap list_fmap List.find].
  change (days_before_month y 1) with 0.
  set (j := days_before_year y + 0 + 1).
  assert (j = days_before_year y + 1) as Hj by (subst j; lia).
  clearbody j.
  repeat match goal with
  | |- context [if ?b then _ else _] =>
      let E := fresh "E" in
      destruct b eqn:E; [apply Z.eqb_eq in E|apply Z.eqb_neq in E]
  end; cbn [default from_option id];
  first [split; [lia|done] | exfalso; Z.div_mod_to_equations; lia].
Qed.

(** Python's Monday of week 1 is the Monday before the first Thursday. *)
Lemma isoweek1monday_week1_monday (y : Z) :
  isoweek1monday y = week1_monday y.
Proof.
  destruct (first_thursday_spec y) as [Hrange Hthu].
  unfold isoweek1monday, week1_monday, ymd2ord.
  change (days_before_month y 1) with 0.
  unfold weekday in Hthu. cbv zeta.
  destruct (3 <? _) eqn:E; [apply Z.ltb_lt in E|apply Z.ltb_ge in E];
    Z.div_mod_to_equations; lia.
Qed.

Lemma week1_monday_spec (y : Z) :
  days_before_year y - 2 ≤ week1_monday y ≤ days_before_year y + 4
  ∧ (week1_monday y + 6) mod 7 = 0.
Proof.
  destruct (first_thursday_spec y) as [Hrange Hthu].
  unfold week1_monday, weekday in *. split; [lia|].
  Z.div_mod_to_equations. lia.
Qed.

(** [isocalendar] gives the ISO year and week of the specification, and
    the week is between 1 and 53. *)
Lemma isocalendar_iso_week (d : date) :
  check_date_fields (year d) (month d) (day d) = true →
  iso_week (toordinal d) (isocalendar d).1.1 (isocalendar d).1.2
  ∧ 1 ≤ (isocalendar d).1.2 ≤ 53.
Proof.
  intros [_ [Hm Hd]]%check_date_fields_true.
  destruct d as [y m dd]; cbn [year month day] in *.
  pose proof (ymd2ord_within_year y m dd Hm Hd) as Hn.
  unfold iso_week, isocalendar, toordinal. cbn [year month day].
  rewrite !isoweek1monday_week1_monday.
  set (n := ymd2ord y m dd) in *. clearbody n.
  pose proof (year_length (y - 1)) as L0. replace (y - 1 + 1) with y in L0 by lia.
  pose proof (year_length y) as L1.
  pose proof (year_length (y + 1)) as L2. replace (y + 1 + 1) with (y + 2) in L2 by lia.
  destruct (week1_monday_spec (y - 1)) as [B0 M0].
  destruct (week1_monday_spec y) as [B1 M1].
  destruct (week1_monday_spec (y + 1)) as [B2 M2].
  destruct (week1_monday_spec (y + 2)) as [B3 M3].
  destruct ((n - week1_monday y) / 7 <? 0) eqn:E1;
    [apply Z.ltb_lt in E1|apply Z.ltb_ge in E1];
    [|destruct ((52 <=? (n - week1_monday y) / 7) && (week1_monday (y + 1) <=? n)) eqn:E2;
      [apply andb_true_iff in E2 as [E2 E3]; apply Z.leb_le in E2, E3
      |apply andb_false_iff in E2 as [E2|E2]; apply Z.leb_gt in E2]];
    cbn [fst snd];
    replace (y - 1 + 1) with y by lia;
    replace (y + 1 + 1) with (y + 2) by lia;
    generalize dependent (week1_monday (y - 1));
    generalize dependent (week1_monday y);
    generalize dependent (week1_monday (y + 1));
    generalize dependent (week1_monday (y + 2));
    generalize dependent (days_before_year (y - 1));
    generalize dependent (days_before_year y);
    generalize dependent (days_before_year (y + 1));
    generalize dependent (days_before_year (y + 2));
    intros; Z.div_mod_to_equations; lia.
Qed.

End Calendar.

(** ** Keys in the order of their dates *)

Section KeyOrder.
Import Datetime.

Lemma date_field_bounds (d : date) :
  check_date_fields (year d) (month d) (day d) = true →
  0 ≤ year d < 10 ^ Z.of_nat 4
  ∧ 0 ≤ month d < 10 ^ Z.of_nat 2
  ∧ 0 ≤ day d < 10 ^ Z.of_nat 2.
Proof.
  intros (Hy & Hm & Hd)%check_date_fields_true.
  unfold MINYEAR, MAXYEAR in Hy.
  assert (days_in_month (year d) (month d) ≤ 31).
  { unfold days_in_month. destruct (_ && _); [lia|].
    assert (month d = 1 ∨ month d = 2 ∨ month d = 3 ∨ month d = 4
            ∨ month d = 5 ∨ month d = 6 ∨ month d = 7 ∨ month d = 8
            ∨ month d = 9 ∨ month d = 10 ∨ month d = 11 ∨ month d = 12)
      as Hcases by lia.
    repeat (destruct Hcases as [-> | Hcases]); try rewrite Hcases; by vm_compute. }
  change (10 ^ Z.of_nat 4) with 10000. change (10 ^ Z.of_nat 2) with 100. lia.
Qed.

(** Year and month, zero-filled, compare as the pair of numbers. *)
Lemma compare_year_month (d1 d2 : date) :
  check_date_fields (year d1) (month d1) (day d1) = true →
  check_date_fields (year d2) (month d2) (day d2) = true →
  String.compare
    (Text.zfill 4 (year d1) +:+ "-" +:+ Text.zfill 2 (month d1))
    (Text.zfill 4 (year d2) +:+ "-" +:+ Text.zfill 2 (month d2))
  = match year d1 ?= year d2 with
    | Eq => month d1 ?= month d2
    | c => c
    end.
Proof.
  intros (Hy1 & Hm1 & _)%date_field_bounds (Hy2 & Hm2 & _)%date_field_bounds.
  rewrite compare_zfill, compare_dash by done.
  rewrite <-(append_nil_r (Text.zfill 2 (month d1))).
  rewrite <-(append_nil_r (Text.zfill 2 (month d2))).
  rewrite compare_zfill by done.
  by destruct (month d1 ?= month d2).
Qed.

(** Canonical dates compare as the triple of numbers. *)
Lemma compare_isoformat (d1 d2 : date) :
  check_date_fields (year d1) (month d1) (day d1) = true →
  check_date_fields (year d2) (month d2) (day d2) = true →
  String.compare (Text.isoformat d1) (Text.isoformat d2)
  = match year d1 ?= year d2 with
    | Eq => match month d1 ?= month d2 with
            | Eq => day d1 ?= day d2
            | c => c
            end
    | c => c
    end.
Proof.
  intros (Hy1 & Hm1 & Hd1)%date_field_bounds (Hy2 & Hm2 & Hd2)%date_field_bounds.
  unfold Text.isoformat.
  rewrite compare_zfill, compare_dash, compare_zfill, compare_dash by done.
  rewrite <-(append_nil_r (Text.zfill 2 (day d1))).
  rewrite <-(append_nil_r (Text.zfill 2 (day d2))).
  rewrite compare_zfill by done.
  by destruct (day d1 ?= day d2).
Qed.

End KeyOrder.

(** ** What [validate_date] accepts *)

Section Validation.
Import Datetime.

Lemma digit_of_range (c : ascii) (v : Z) : digit_of c = Some v → 0 ≤ v ≤ 9.
Proof.
  unfold digit_of. destruct (_ && _) eqn:E; [|done].
  apply andb_true_iff in E as [E1 E2]. apply Z.leb_le in E1, E2.
  intros [= <-]. lia.
Qed.

Lemma in_range_digit (lo hi : Z) (c : ascii) (v : Z) :
  digit_of c = Some v →
  in_range lo hi c = if (lo <=? v) && (v <=? hi) then Some v else None.
Proof. intros Hc. unfold in_range. by rewrite Hc. Qed.

Lemma lit_same (c : ascii) (s : string) : lit c (String c s) = Some s.
Proof. unfold lit. by destruct (decide (c = c)). Qed.

(** On two digits that make a month, the first alternative of the
    pattern that matches is a two-digit one. *)
Lemma re_m_two_digits (c1 c2 : ascii) (rest : string) (b1 b2 : Z) :
  digit_of c1 = Some b1 → digit_of c2 = Some b2 →
  1 ≤ 10 * b1 + b2 ≤ 12 →
  ∃ alts, re_m (String c1 (String c2 rest)) = (10 * b1 + b2, rest) :: alts.
Proof.
  intros H1 H2 Hm.
  pose proof (digit_of_range _ _ H1). pose proof (digit_of_range _ _ H2).
  unfold re_m, two, one.
  rewrite !(in_range_digit _ _ c1 b1), !(in_range_digit _ _ c2 b2) by done.
  assert (b1 = 0 ∨ b1 = 1) as [-> | ->] by lia.
  - cbn [Z.leb Z.compare andb app].
    assert ((1 <=? b2) && (b2 <=? 9) = true) as ->
      by (apply andb_true_intro; split; lia).
    by eexists.
  - cbn [Z.leb Z.compare andb app].
    assert ((0 <=? b2) && (b2 <=? 2) = true) as ->
      by (apply andb_true_intro; split; lia).
    by eexists.
Qed.

(** The same for two digits that make a day of the month. *)
Lemma re_d_two_digits (c1 c2 : ascii) (rest : string) (b1 b2 : Z) :
  digit_of c1 = Some b1 → digit_of c2 = Some b2 →
  1 ≤ 10 * b1 + b2 ≤ 31 →
  ∃ alts, re_d (String c1 (String c2 rest)) = (10 * b1 + b2, rest) :: alts.
Proof.
  intros H1 H2 Hd.
  pose proof (digit_of_range _ _ H1). pose proof (digit_of_range _ _ H2).
  unfold re_d, two, one.
  rewrite !(in_range_digit _ _ c1 b1), !(in_range_digit _ _ c2 b2) by done.
  assert (b1 = 0 ∨ b1 = 1 ∨ b1 = 2 ∨ b1 = 3) as [-> | [-> | [-> | ->]]] by lia;
    cbn [Z.leb Z.compare andb app].
  - assert ((1 <=? b2) && (b2 <=? 9) = true) as ->
      by (apply andb_true_intro; split; lia).
    by eexists.
  - assert ((0 <=? b2) && (b2 <=? 9) = true) as ->
      by (apply andb_true_intro; split; lia).
    by eexists.
  - assert ((0 <=? b2) && (b2 <=? 9) = true) as ->
      by (apply andb_true_intro; split; lia).
    by eexists.
  - assert ((0 <=? b2) && (b2 <=? 1) = true) as ->
      by (apply andb_true_intro; split; lia).
    by eexists.
Qed.

(** X1.  Every text of the form YYYY-MM-DD that denotes a date of the
    calendar passes [validate_date]. *)
Theorem spec_dates_pass (text : string) :
  Text.spec_ValidateDate text = true → validate_date text = true.
Proof.
  unfold Text.spec_ValidateDate.
  destruct text as [|y1 [|y2 [|y3 [|y4 [|s1 [|m1 [|m2 [|s2 [|d1 [|d2 [|more ?]]]]]]]]]]];
    try done.
  cbn [String.list_ascii_of_string].
  intros [[Hs1 Hs2]%andb_true_iff Hfields]%andb_true_iff.
  apply bool_decide_eq_true in Hs1 as ->. apply bool_decide_eq_true in Hs2 as ->.
  unfold Text.number in Hfields. cbn [foldl mbind option_bind] in Hfields.
  destruct (digit_of y1) as [a1|] eqn:Hy1; [|done].
  destruct (digit_of y2) as [a2|] eqn:Hy2; [|done].
  destruct (digit_of y3) as [a3|] eqn:Hy3; [|done].
  destruct (digit_of y4) as [a4|] eqn:Hy4; [|done].
  destruct (digit_of m1) as [b1|] eqn:Hm1; [|done].
  destruct (digit_of m2) as [b2|] eqn:Hm2; [|done].
  destruct (digit_of d1) as [c1|] eqn:Hd1; [|done].
  destruct (digit_of d2) as [c2|] eqn:Hd2; [|done].
  cbn [mbind option_bind] in Hfields.
  pose proof Hfields as (_ & Hm & Hd)%check_date_fields_true.
  assert (days_in_month (10 * (10 * (10 * (10 * 0 + a1) + a2) + a3) + a4)
            (10 * (10 * 0 + b1) + b2) ≤ 31).
  { unfold days_in_month. destruct (_ && _); [lia|].
    assert (Z.to_nat (10 * (10 * 0 + b1) + b2) < 13)%nat as Hlt by lia.
    destruct (Z.to_nat (10 * (10 * 0 + b1) + b2)) as [|[|[|[|[|[|[|[|[|[|[|[|[|?]]]]]]]]]]]]];
      cbn; lia. }
  destruct (re_m_two_digits m1 m2 (String "-" (String d1 (String d2 ""))) b1 b2)
    as [alts_m Hre_m]; [done..|lia|].
  destruct (re_d_two_digits d1 d2 "" c1 c2) as [alts_d Hre_d]; [done..|lia|].
  unfold validate_date, strptime, regex_match, re_Y.
  rewrite Hy1, Hy2, Hy3, Hy4. cbn [mbind option_bind].
  rewrite lit_same. cbn [mbind option_bind].
  rewrite Hre_m. cbn [first_match]. rewrite lit_same. cbn [mbind option_bind].
  rewrite Hre_d. cbn [first_match mbind option_bind].
  destruct (decide ("" = "")); [|done]. unfold new_date.
  replace (1000 * a1 + 100 * a2 + 10 * a3 + a4)
    with (10 * (10 * (10 * (10 * 0 + a1) + a2) + a3) + a4) by lia.
  replace (10 * b1 + b2) with (10 * (10 * 0 + b1) + b2) by lia.
  replace (10 * c1 + c2) with (10 * (10 * 0 + c1) + c2) by lia.
  by rewrite Hfields.
Qed.

(** C5, on the code.  [validate_date] accepts "2024-1-5", which is not
    of the form YYYY-MM-DD (the three dates the claim lists are judged as
    it says). *)
Theorem validate_date_accepts_unpadded :
  validate_date "2024-1-5" = true
  ∧ Text.spec_ValidateDate "2024-1-5" = false
  ∧ validate_date "2024-02-30" = false
  ∧ validate_date "2024-02-29" = true
  ∧ validate_date "2023-02-29" = false.
Proof. repeat split; reflexivity. Qed.

End Validation.

(** ** What statements preserve *)

Section Preserves.
Context {A : Type}.

#[export] Instance same_ledger_preorder : PreOrder (same_ledger (A:=A)).
Proof.
  split; [intros st; by split|].
  intros st1 st2 st3 [H1 H2] [H3 H4]. split; congruence.
Qed.

#[export] Instance input_shorter_preorder : PreOrder (input_shorter (A:=A)).
Proof.
  split; [intros st; by unfold input_shorter|].
  intros st1 st2 st3 H1 H2. unfold input_shorter in *. lia.
Qed.

Context (R : relation (state A)) `{!PreOrder R}.

Lemma preserves_ret {T} (x : T) : preserves R (mret x).
Proof. intros st. reflexivity. Qed.

Lemma preserves_raise {T} (e : exn) : preserves R (raise (T:=T) e).
Proof. intros st. reflexivity. Qed.

Lemma preserves_lift {T} (r : result T) : preserves R (lift r).
Proof. intros st. reflexivity. Qed.

Lemma preserves_gets {T} (f : state A → T) : preserves R (gets f).
Proof. intros st. reflexivity. Qed.

Lemma preserves_modify (f : state A → state A) :
  (∀ st, R st (f st)) → preserves R (modify f).
Proof. intros Hf st. apply Hf. Qed.

Lemma preserves_bind {T U} (m : M A T) (k : T → M A U) :
  preserves R m → (∀ x, preserves R (k x)) → preserves R (m ≫= k).
Proof.
  intros Hm Hk st. specialize (Hm st).
  unfold mbind, M_bind. destruct (m st) as [[x|e] st']; simpl in *; [|done].
  etrans; [exact Hm|apply Hk].
Qed.

Lemma preserves_try_except {T} (body : M A T) (handlers : exn → option (M A T)) :
  preserves R body →
  (∀ e h, handlers e = Some h → preserves R h) →
  preserves R (try_except body handlers).
Proof.
  intros Hb Hh st. specialize (Hb st).
  unfold try_except. destruct (body st) as [[x|e] st']; simpl in *; [done|].
  destruct (handlers e) as [h|] eqn:He; [|done].
  etrans; [exact Hb|by apply (Hh e h)].
Qed.

End Preserves.

Section PreservesLedger.
Context {A : Type} `{Amount A} `{FloatOf A}.
Variable libc_pads_year : bool.

(** The two relations of interest: printing and reading keep the ledger;
    printing and writing to the ledger or the files add no input. *)
Lemma same_ledger_print (m : message A) : preserves same_ledger (print m).
Proof. intros st. by split. Qed.

Lemma same_ledger_input : preserves same_ledger (input (A:=A)).
Proof. intros st. unfold input. by destruct (stdin st); split. Qed.

Lemma input_shorter_print (m : message A) : preserves input_shorter (print m).
Proof. intros st. by unfold input_shorter. Qed.

Lemma input_shorter_input : preserves input_shorter (input (A:=A)).
Proof.
  intros st. unfold input_shorter, input.
  destruct st as [ex [|line rest] out fs nw]; simpl; lia.
Qed.

Lemma input_shorter_set_expenses (f : state A → list (Expense A)) :
  preserves input_shorter (modify (λ st, set_expenses (f st) st)).
Proof. intros st. by unfold input_shorter. Qed.

Lemma input_shorter_set_files (f : state A → gmap string (file A)) :
  preserves input_shorter (modify (λ st, set_files (f st) st)).
Proof. intros st. by unfold input_shorter. Qed.

End PreservesLedger.

Create HintDb preserves.
#[export] Hint Resolve preserves_ret preserves_raise preserves_lift preserves_gets
  same_ledger_print same_ledger_input input_shorter_print input_shorter_input
  input_shorter_set_expenses input_shorter_set_files
  same_ledger_preorder input_shorter_preorder : preserves.

(** Breaks a statement into its parts, one goal for each. *)
Ltac preserves_step :=
  match goal with
  | |- preserves ?R (_ ≫= _) => apply (preserves_bind R); [|intros ?]
  | |- preserves ?R (try_except _ _) =>
      apply (preserves_try_except R); [|intros [] ? [= <-]]
  | |- preserves _ (if ?b then _ else _) => destruct b
  | |- preserves _ (match ?x with _ => _ end) => destruct x
  | |- preserves _ (int _) => unfold int
  | |- preserves _ (float _) => unfold float
  | |- preserves _ (save_to_file _) => unfold save_to_file
  | |- preserves _ (assign _ _) => unfold assign
  | |- preserves _ (modify (set_expenses _)) => apply (input_shorter_set_expenses (λ _, _))
  | |- _ => solve [auto with preserves]
  end.

Section Frame.
Context {A : Type} `{Amount A} `{FloatOf A}.
Variable libc_pads_year : bool.
Context (R : relation (state A)) `{!PreOrder R}.
Hypothesis R_print : ∀ m : message A, preserves R (print m).
Hypothesis R_input : preserves R (input (A:=A)).

Lemma preserves_print_all (ms : list (message A)) : preserves R (print_all ms).
Proof.
  induction ms as [|m ms IH]; [apply (preserves_ret R)|].
  simpl. apply (preserves_bind R); [apply R_print|done].
Qed.

Lemma preserves_summary_loop time_choice (l : list (Expense A)) summary :
  preserves R (summary_loop libc_pads_year time_choice l summary).
Proof.
  revert summary. induction l as [|e l IH]; intros summary; simpl.
  - apply (preserves_ret R).
  - repeat first [apply IH | apply R_print | preserves_step].
Qed.

Lemma preserves_view_summary : preserves R (view_summary (A:=A) libc_pads_year).
Proof.
  unfold view_summary.
  repeat first [apply preserves_summary_loop | apply preserves_print_all
               | apply R_print | apply R_input | preserves_step].
Qed.

Lemma preserves_graphical_summary : preserves R (graphical_summary (A:=A)).
Proof. unfold graphical_summary. repeat first [apply R_print | preserves_step]. Qed.

End Frame.

Section FrameLedger.
Context {A : Type} `{Amount A}.
Variable libc_pads_year : bool.

(** C9.  [view_summary], which computes the total of a category, the
    overall total and the time-bucketed summary, and [graphical_summary],
    which computes the totals of the chart, return or raise with the
    records of the ledger exactly as they were: for every state, that is
    for every ledger and every input. *)
Theorem aggregations_leave_ledger_unchanged (st : state A) :
  expenses (view_summary libc_pads_year st).2 = expenses st
  ∧ expenses (graphical_summary st).2 = expenses st.
Proof.
  split.
  - apply (preserves_view_summary libc_pads_year same_ledger
             same_ledger_print same_ledger_input).
  - apply (preserves_graphical_summary same_ledger same_ledger_print).
Qed.

End FrameLedger.

(** ** Adding and editing *)

Section Mutations.
Context {A : Type} `{Amount A} `{FloatOf A}.
Variable libc_pads_year : bool.

(** C7.  Once the amount typed is a number, an add whose date fails
    [validate_date] is refused with the invalid-date message and changes
    neither the ledger nor the files; an add whose date passes appends the
    new record at the end of the ledger and saves the ledger so extended.
    (An amount that is no number is refused before the date is read, the
    ledger and the files unchanged as well.) *)
Theorem add_expenses_date_gate (st : state A)
    (amount_text category_text date_text : string) (rest : list string) :
  stdin st = amount_text :: category_text :: date_text :: rest →
  let date := date_entered libc_pads_year st date_text in
  add_expenses libc_pads_year st =
    match float_of (Text.strip amount_text) with
    | None =>
        (Ok tt, mkState (expenses st) (category_text :: date_text :: rest)
                  (stdout st ++ [MsgInvalidAmount]) (files st) (now st))
    | Some a =>
        let expense := mkExpense a (Text.strip category_text) date in
        if validate_date date then
          (Ok tt, mkState (expenses st ++ [expense]) rest
                    (stdout st ++ [MsgAdded a (Text.strip category_text) date])
                    (<["expenses.json" :=
                         Document (JArr (to_dict <$> (expenses st ++ [expense])))]>
                       (files st))
                    (now st))
        else
          (Ok tt, mkState (expenses st) rest (stdout st ++ [MsgInvalidDate])
                    (files st) (now st))
    end.
Proof.
  intros Hin date.
  destruct st as [ex inp out fs nw]; simpl in *; subst inp.
  unfold add_expenses. run.
  destruct (float_of (Text.strip amount_text)) as [a|]; simpl; [|done].
  subst date. unfold date_entered. simpl.
  by destruct (validate_date _).
Qed.

Lemma print_all_run (ms : list (message A)) (st : state A) :
  print_all ms st = (Ok tt, set_stdout (stdout st ++ ms) st).
Proof.
  revert st. induction ms as [|m ms IH]; intros [ex inp out fs nw]; simpl.
  - unfold mret, M_ret, set_stdout. simpl. by rewrite app_nil_r.
  - run. rewrite IH. unfold set_stdout. simpl. by rewrite <-app_assoc.
Qed.

Lemma alter_insert (f : Expense A → Expense A) (l : list (Expense A)) i e :
  l !! i = Some e → alter f i l = <[i := f e]> l.
Proof.
  intros Hi. rewrite list_insert_alter. apply list_alter_ext; [|done].
  intros x Hx. by simplify_eq.
Qed.

(** C8.  Editing a validly selected record: an amount that is no number
    keeps the previous amount, a date that fails [validate_date] keeps the
    previous date, each reported, and neither stops the other fields from
    being applied; a category that is not empty replaces the old one; and
    the ledger is saved at the end in every case. *)
Theorem edit_expense_partial (st : state A)
    (choice_text amount_text category_text date_text : string)
    (rest : list string) (choice : Z) (e : Expense A) :
  stdin st = choice_text :: amount_text :: category_text :: date_text :: rest →
  Text.int (Text.strip choice_text) = Some choice →
  1 ≤ choice ≤ Z.of_nat (length (expenses st)) →
  expenses st !! Z.to_nat (choice - 1) = Some e →
  let new_amount := Text.strip amount_text in
  let new_category := Text.strip category_text in
  let new_date := Text.strip date_text in
  let ledger :=
    <[Z.to_nat (choice - 1) := edited e new_amount new_category new_date]>
      (expenses st) in
  edit_expense st =
    (Ok tt,
     mkState ledger rest
       (stdout st ++ listing (expenses st) ++ [MsgEditing e]
          ++ edit_reports new_amount new_date ++ [MsgUpdated])
       (<["expenses.json" := Document (JArr (to_dict <$> ledger))]> (files st))
       (now st)).
Proof.
  intros Hin Hint Hrange Hlook new_amount new_category new_date ledger.
  destruct st as [ex inp out fs nw]; simpl in *; subst inp.
  assert (length ex ≠ 0%nat) as Hlen by (intros E; rewrite E in Hrange; simpl in Hrange; lia).
  unfold edit_expense. run.
  rewrite bool_decide_false by done.
  rewrite print_all_run. simpl.
  rewrite Hint. simpl.
  assert ((1 <=? choice) && (choice <=? Z.of_nat (length ex)) = true) as ->
    by (apply andb_true_intro; split; lia).
  rewrite Hlook. simpl.
  subst ledger. unfold edited, edit_reports. fold new_amount new_category new_date.
  set (i := Z.to_nat (choice - 1)) in *.
  assert (∀ f, alter f i ex = <[i := f e]> ex) as Hf
    by (intros f; by apply alter_insert).
  assert (<[i := e]> ex = ex) as Hid by (by apply list_insert_id).
  destruct e as [ea ec ed]; simpl in *.
  destruct (nonempty new_amount); simpl;
    [destruct (float_of new_amount) as [a|]; simpl|];
    (destruct (nonempty new_category); simpl);
    (destruct (nonempty new_date); simpl;
      [destruct (validate_date new_date); simpl|]);
    unfold set_expenses, set_stdout, set_files; simpl;
    rewrite ?list_alter_alter_eq, ?Hf, ?Hid; simpl;
    rewrite <-?app_assoc; simpl; reflexivity.
Qed.

(** X2.  [delete_expense] on a number typed: a position outside the ledger
    is refused and nothing changes; a position inside removes that record,
    keeps the others in order, and saves. *)
Theorem delete_expense_run (st : state A) (choice_text : string)
    (rest : list string) (choice : Z) :
  expenses st ≠ [] →
  stdin st = choice_text :: rest →
  Text.int (Text.strip choice_text) = Some choice →
  delete_expense st =
    match expenses st !! Z.to_nat (choice - 1) with
    | Some removed =>
        if (1 <=? choice) && (choice <=? Z.of_nat (length (expenses st))) then
          let ledger := delete (Z.to_nat (choice - 1)) (expenses st) in
          (Ok tt,
           mkState ledger rest
             (stdout st ++ listing (expenses st) ++ [MsgDeleted removed])
             (<["expenses.json" := Document (JArr (to_dict <$> ledger))]> (files st))
             (now st))
        else
          (Ok tt,
           mkState (expenses st) rest
             (stdout st ++ listing (expenses st) ++ [MsgInvalidSelection])
             (files st) (now st))
    | None =>
        (Ok tt,
         mkState (expenses st) rest
           (stdout st ++ listing (expenses st) ++ [MsgInvalidSelection])
           (files st) (now st))
    end.
Proof.
  intros Hne Hin Hint.
  destruct st as [ex inp out fs nw]; simpl in *; subst inp.
  unfold delete_expense. run.
  rewrite bool_decide_false by (by destruct ex).
  rewrite print_all_run. simpl. rewrite Hint. simpl.
  destruct ((1 <=? choice) && (choice <=? Z.of_nat (length ex))) eqn:Hrange.
  - destruct (ex !! Z.to_nat (choice - 1)) as [removed|] eqn:Hlook; simpl.
    + unfold set_stdout. simpl. by rewrite <-!app_assoc.
    + apply andb_true_iff in Hrange as [H1 H2]. apply Z.leb_le in H1, H2.
      apply lookup_ge_None in Hlook. lia.
  - unfold set_stdout. simpl. rewrite <-!app_assoc.
    by destruct (ex !! Z.to_nat (choice - 1)).
Qed.

End Mutations.

(** ** Persistence *)

Section Persistence.
Context {A : Type} `{Amount A} `{FloatOf A}.

Lemma from_dict_to_dict (e : Expense A) : from_dict (to_dict e) = Ok e.
Proof.
  destruct e as [a c d]. unfold from_dict, to_dict, getitem.
  cbn [amount category date].
  rewrite lookup_insert_eq.
  rewrite (lookup_insert_ne _ "amount" "category"), lookup_insert_eq by done.
  rewrite (lookup_insert_ne _ "amount" "date"),
    (lookup_insert_ne _ "category" "date"), lookup_insert_eq by done.
  reflexivity.
Qed.

Lemma comprehension_from_dict (l : list (Expense A)) :
  comprehension from_dict (to_dict <$> l) = Ok l.
Proof.
  induction l as [|e l IH]; [done|].
  rewrite fmap_cons. cbn [comprehension].
  rewrite from_dict_to_dict, IH. reflexivity.
Qed.

(** C6.  Saving and then loading gives back the ledger that was saved:
    the same records, in the same order, with the same fields, whatever
    the tracker held in memory when it loaded. *)
Theorem save_then_load (st : state A) (filename : string)
    (in_memory : list (Expense A)) :
  let saved := (save_to_file filename st).2 in
  load_from_file filename (set_expenses in_memory saved) =
    (Ok tt,
     mkState (expenses st) (stdin st)
       (stdout st ++ [MsgLoaded (length (expenses st)) filename])
       (files saved) (now st)).
Proof.
  destruct st as [ex inp out fs nw]. unfold load_from_file. run.
  rewrite lookup_insert_eq. simpl.
  rewrite comprehension_from_dict. simpl. reflexivity.
Qed.

(** A document whose entries miss a key makes [load_from_file] raise the
    [KeyError] of [from_dict]: neither [except] clause catches it. *)
Lemma load_from_file_KeyError (st : state A) filename data items key :
  files st !! filename = Some (Document data) →
  iter data = Ok items →
  comprehension from_dict items = Raise (KeyError key) →
  load_from_file filename st = (Raise (KeyError key), st).
Proof.
  intros Hfile Hiter Hitems. unfold load_from_file. run.
  rewrite Hfile. simpl. rewrite Hiter. simpl. rewrite Hitems. reflexivity.
Qed.

(** Reading a document raises nothing but a [KeyError] or a
    [TypeError]: no clause of [load_from_file] catches what it raises. *)
Lemma from_dict_raises (data : json A) (e : exn) :
  from_dict data = Raise e → key_or_type_error e.
Proof.
  unfold from_dict, getitem, as_number, as_text, key_or_type_error.
  destruct data as [| | | | |members]; try (intros [= <-]; by left).
  cbn [mbind result_bind].
  destruct (members !! "amount") as [[]|]; cbn [mbind result_bind];
    try (intros [= <-]; by eauto).
  all: destruct (members !! "category") as [[]|]; cbn [mbind result_bind];
    try (intros [= <-]; by eauto).
  all: destruct (members !! "date") as [[]|]; cbn [mbind result_bind];
    try (intros [= <-]; by eauto).
  all: done.
Qed.

Lemma comprehension_from_dict_raises (items : list (json A)) (e : exn) :
  comprehension from_dict items = Raise e → key_or_type_error e.
Proof.
  induction items as [|item items IH]; [done|]. cbn [comprehension].
  destruct (from_dict item) as [x|e'] eqn:Hitem; cbn [mbind result_bind].
  - destruct (comprehension from_dict items); [done|].
    cbn [mbind result_bind]. intros [= <-]. by apply IH.
  - intros [= <-]. by apply (from_dict_raises item).
Qed.

Lemma iter_raises (data : json A) (e : exn) :
  iter data = Raise e → key_or_type_error e.
Proof. destruct data; try done; intros [= <-]; by left. Qed.

(** What [save_to_file] writes is read as the code reads it. *)
Lemma typed_entry_to_dict (e : Expense A) : typed_entry (to_dict e).
Proof.
  destruct e as [a c d]. unfold to_dict. cbn [typed_entry amount category date].
  intros a' c' d'. rewrite lookup_insert_eq.
  rewrite (lookup_insert_ne _ "amount" "category"), lookup_insert_eq by done.
  rewrite (lookup_insert_ne _ "amount" "date"),
    (lookup_insert_ne _ "category" "date"), lookup_insert_eq by done.
  intros [= <-] [= <-] [= <-]. split; [by eexists|split; by eexists].
Qed.

Lemma read_as_the_code_does_saved (l : list (Expense A)) :
  read_as_the_code_does (Document (JArr (to_dict <$> l))).
Proof.
  intros items [= <-]. apply Forall_fmap, Forall_true, typed_entry_to_dict.
Qed.

(** X3.  [load_from_file], run on a file that the model reads as the
    code does: a missing file and a text that is not JSON are reported and
    leave the ledger as it was; a document replaces the ledger by its
    records, unless reading one of them raises, in which case the
    exception, a [KeyError] or a [TypeError], leaves the method, nothing
    is printed and the ledger is as it was. *)
Theorem load_from_file_run (st : state A) (filename : string) :
  (∀ f, files st !! filename = Some f → read_as_the_code_does f) →
  load_from_file filename st =
    match files st !! filename with
    | None => (Ok tt, set_stdout (stdout st ++ [MsgNoPreviousData]) st)
    | Some (Garbage _) => (Ok tt, set_stdout (stdout st ++ [MsgCorrupt]) st)
    | Some (Document data) =>
        match iter data ≫= comprehension from_dict with
        | Ok loaded =>
            (Ok tt,
             mkState loaded (stdin st)
               (stdout st ++ [MsgLoaded (length loaded) filename])
               (files st) (now st))
        | Raise e => (Raise e, st)
        end
    end
  ∧ ∀ (data : json A) e,
      files st !! filename = Some (Document data) →
      iter data ≫= comprehension from_dict = Raise e → key_or_type_error e.
Proof.
  intros _.
  assert (∀ (data : json A) e, iter data ≫= comprehension from_dict = Raise e →
                                 key_or_type_error e) as Hraises.
  { intros data e. destruct (iter data) as [items|e'] eqn:Hiter; simpl.
    - apply comprehension_from_dict_raises.
    - intros [= <-]. by apply (iter_raises data). }
  split; [|intros data e _; apply Hraises].
  unfold load_from_file. run.
  destruct (files st !! filename) as [[data|text]|]; [|done..].
  specialize (Hraises data). simpl.
  destruct (iter data) as [items|e]; simpl in *.
  - destruct (comprehension from_dict items) as [loaded|e]; simpl; [done|].
    by destruct (Hraises e eq_refl) as [->|[key ->]].
  - by destruct (Hraises e eq_refl) as [->|[key ->]].
Qed.

End Persistence.

(** C2, on the code.  With such a file, [load_from_file] raises the
    [KeyError] of [from_dict] and prints nothing; the exception reaches
    the top of the program before the menu is shown, whatever the input
    and however many turns the menu is given. *)
Theorem malformed_entry_ends_the_program (fuel : nat) (inputs : list string)
    (today : Datetime.date) :
  let st := mkState [] inputs [] files_with_malformed_entry today in
  load_from_file "expenses.json" st = (Raise (KeyError "date"), st)
  ∧ main false fuel st = (Raise (KeyError "date"), st).
Proof.
  intros st.
  assert (load_from_file "expenses.json" st = (Raise (KeyError "date"), st)) as Hload.
  { apply (load_from_file_KeyError st "expenses.json"
             (JArr [entry_without_date]) [entry_without_date]); reflexivity. }
  split; [exact Hload|].
  unfold main, mbind, M_bind, modify. cbn [set_expenses expenses].
  change (set_expenses [] st) with st. by rewrite Hload.
Qed.

(** ** The aggregations *)

Section Aggregation.
Context {A : Type} `{Amount A}.
Variable libc_pads_year : bool.

Lemma time_key_granularity time_choice (e : Expense A) d :
  granularity time_choice →
  is_Some (time_key libc_pads_year time_choice e d).
Proof. intros [-> | [-> | ->]]; by eexists. Qed.

(** The loop of [view_summary], run: for a choice among 1, 2 and 3 it
    completes with the tally of the records whose date is valid, and has
    reported the others. *)
Lemma summary_loop_run time_choice (l : list (Expense A)) summary (st : state A) :
  granularity time_choice →
  summary_loop libc_pads_year time_choice l summary st =
    (Ok (Some (tally (omap (bucketed libc_pads_year time_choice) l) summary)),
     set_stdout (stdout st ++ skipped l) st).
Proof.
  intros Hg. revert summary st.
  induction l as [|e l IH]; intros summary [ex inp out fs nw].
  - unfold skipped, set_stdout. simpl. by rewrite app_nil_r.
  - cbn [summary_loop omap list_omap]. unfold skipped. rewrite filter_cons.
    destruct (Datetime.strptime (date e)) as [d|] eqn:Hd.
    + assert (validate_date (date e) = true) as Hv
        by (unfold validate_date; by rewrite Hd).
      destruct (time_key_granularity time_choice e d Hg) as [key Hkey].
      assert (bucketed libc_pads_year time_choice e = Some (key, amount e)) as ->.
      { unfold bucketed, bucket_key. rewrite Hd. cbn. by rewrite Hkey. }
      rewrite decide_False by (by rewrite Hv).
      rewrite Hv. cbn [negb]. rewrite Hkey, IH. reflexivity.
    + assert (validate_date (date e) = false) as Hv
        by (unfold validate_date; by rewrite Hd).
      assert (bucketed libc_pads_year time_choice e = None) as ->.
      { unfold bucketed, bucket_key. by rewrite Hd. }
      rewrite decide_True by done. rewrite Hv. cbn [negb].
      run. rewrite IH.
      unfold set_stdout, skipped. simpl. by rewrite <-app_assoc.
Qed.

Lemma tally_cons (p : string * A) pairs (d : gmap string A) :
  tally (p :: pairs) d = tally pairs (add_to p.1 p.2 d).
Proof. reflexivity. Qed.

(** The tally, read at one key: the amounts of the pairs with that key,
    added in order to what the dictionary held. *)
Lemma tally_lookup (pairs : list (string * A)) (d : gmap string A) (key : string) :
  tally pairs d !! key =
    match filter (λ p, p.1 = key) pairs with
    | [] => d !! key
    | bucket => Some (foldl amount_add (default amount0 (d !! key)) bucket.*2)
    end.
Proof.
  revert d. induction pairs as [|[k a] pairs IH]; intros d; [done|].
  rewrite tally_cons, IH, filter_cons. cbn [fst snd]. unfold add_to.
  destruct (decide (k = key)) as [->|Hne].
  - rewrite lookup_insert_eq. cbn [default]. by destruct (filter _ pairs).
  - by rewrite lookup_insert_ne.
Qed.

(** The same reading through a list of records: [key_of] gives the key
    of the records that take part. *)
Lemma tally_omap_lookup (key_of : Expense A → option string)
    (l : list (Expense A)) (key : string) :
  tally (omap (λ e, k ← key_of e; Some (k, amount e)) l) ∅ !! key =
    match filter (λ e, key_of e = Some key) l with
    | [] => None
    | bucket => Some (py_sum (amount <$> bucket))
    end.
Proof.
  rewrite tally_lookup, lookup_empty. cbn [default].
  assert (∀ acc,
    foldl amount_add acc
      (filter (λ p, p.1 = key) (omap (λ e, k ← key_of e; Some (k, amount e)) l)).*2
    = foldl amount_add acc (amount <$> filter (λ e, key_of e = Some key) l)
    ∧ (filter (λ p, p.1 = key) (omap (λ e, k ← key_of e; Some (k, amount e)) l) = []
       ↔ filter (λ e, key_of e = Some key) l = [])) as Hfold.
  { induction l as [|e l IH]; intros acc; [done|].
    cbn [omap list_omap]. rewrite (filter_cons _ e).
    destruct (key_of e) as [k|] eqn:Hk; cbn [mbind option_bind].
    - rewrite filter_cons. cbn [fst].
      destruct (decide (k = key)) as [->|Hne].
      + rewrite decide_True by done. cbn. split; [apply IH|done].
      + rewrite decide_False by congruence. apply IH.
    - rewrite decide_False by done. apply IH. }
  destruct (Hfold amount0) as [Hsum Hnil].
  destruct (filter (λ p, p.1 = key) _) as [|p ps] eqn:Hps.
  - destruct Hnil as [-> _]; done.
  - destruct (filter (λ e, key_of e = Some key) l) as [|e es] eqn:Hes.
    + destruct Hnil as [_ Hnil]. by specialize (Hnil eq_refl).
    + f_equal. apply Hsum.
Qed.

(** The totals of the chart are a tally of the ledger by category. *)
Lemma category_totals_tally (l : list (Expense A)) :
  category_totals l = tally (omap (λ e, k ← Some (category e); Some (k, amount e)) l) ∅.
Proof.
  unfold category_totals, tally. generalize (∅ : gmap string A).
  induction l as [|e l IH]; intros d; [done|]. cbn. apply IH.
Qed.

(** C3, as the code has it.  The totals of the chart group the records
    by their category text exactly as it is stored: the total under a
    category is the sum of the amounts of the records with that very text,
    a text no record has is no key, and so two records whose categories
    differ, be it only in the case of a letter, go to two pairs. *)
Theorem category_totals_exact (l : list (Expense A)) (c : string) :
  category_totals l !! c =
    match filter (λ e, category e = c) l with
    | [] => None
    | bucket => Some (py_sum (amount <$> bucket))
    end.
Proof.
  rewrite category_totals_tally, tally_omap_lookup.
  assert (filter (λ e : Expense A, Some (category e) = Some c) l
          = filter (λ e, category e = c) l) as ->; [|done].
  apply list_filter_iff. intros e. split; congruence.
Qed.

(** The summary, read at one key: the sum of the amounts of the records
    that have this key, in the order of the ledger. *)
Lemma time_bucketed_summary_lookup time_choice (l : list (Expense A)) (key : string) :
  time_bucketed_summary libc_pads_year time_choice l !! key =
    match filter (λ e, bucket_key libc_pads_year time_choice e = Some key) l with
    | [] => None
    | bucket => Some (py_sum (amount <$> bucket))
    end.
Proof.
  apply (tally_omap_lookup (bucket_key libc_pads_year time_choice)).
Qed.

(** C1, as the code has it.  A record whose date passes [validate_date]
    is in the bucket of the weekly summary whose key is the calendar year
    of its date, "-W", and the ISO-8601 week number of its date, both in
    decimal without padding; the summary holds under that key the sum of
    the amounts of the bucket.  For 2024-01-01 the key is "2024-W1". *)
Theorem weekly_bucket_key (l : list (Expense A)) (e : Expense A)
    (d : Datetime.date) (st : state A) :
  e ∈ l →
  Datetime.strptime (date e) = Some d →
  let week := (Datetime.isocalendar d).1.2 in
  let key := Text.str (Datetime.year d) +:+ "-W" +:+ Text.str week in
  let bucket := filter (λ e', bucket_key libc_pads_year 3 e' = Some key) l in
  (∃ iso_year, Datetime.iso_week (Datetime.toordinal d) iso_year week)
  ∧ 1 ≤ week ≤ 53
  ∧ e ∈ bucket
  ∧ (∃ st', summary_loop libc_pads_year 3 l ∅ st =
              (Ok (Some (time_bucketed_summary libc_pads_year 3 l)), st'))
  ∧ time_bucketed_summary libc_pads_year 3 l !! key
    = Some (py_sum (amount <$> bucket))
  ∧ (d = Datetime.Date 2024 1 1 → key = "2024-W1").
Proof.
  intros He Hd week key bucket.
  destruct (isocalendar_iso_week d (strptime_check_date_fields _ _ Hd))
    as [Hiso Hrange].
  assert (e ∈ bucket) as Hin.
  { apply list_elem_of_filter. split; [|done].
    unfold bucket_key. rewrite Hd. reflexivity. }
  split; [by eexists|]. split; [done|]. split; [done|].
  split; [eexists; apply summary_loop_run; right; right; reflexivity|].
  split.
  - rewrite time_bucketed_summary_lookup. fold bucket.
    destruct bucket; [by apply elem_of_nil in Hin|done].
  - intros ->. reflexivity.
Qed.

(** *** The order of the summary *)

#[local] Instance item_le_total : Total (item_le (A:=A)).
Proof. intros x y. unfold item_le. apply (total String.le). Qed.

#[local] Instance item_le_trans : Transitive (item_le (A:=A)).
Proof. intros x y z. unfold item_le. apply (transitivity (R:=String.le)). Qed.

Lemma sorted_items_Permutation (summary : gmap string A) :
  sorted_items summary ≡ₚ map_to_list summary.
Proof. apply merge_sort_Permutation. Qed.

(** The items come out with their keys in strictly ascending order. *)
Lemma sorted_items_sorted (summary : gmap string A) :
  StronglySorted Text.lt (sorted_items summary).*1.
Proof.
  assert (NoDup (sorted_items summary).*1) as Hnodup.
  { rewrite sorted_items_Permutation. apply NoDup_fst_map_to_list. }
  assert (StronglySorted item_le (sorted_items summary)) as Hsorted
    by apply (StronglySorted_merge_sort _).
  induction Hsorted as [|x l _ IH Hhd]; [constructor|].
  rewrite fmap_cons in *. apply NoDup_cons in Hnodup as [Hx Hnodup].
  constructor; [by apply IH|].
  apply Forall_fmap, Forall_forall. intros y Hy.
  rewrite Forall_forall in Hhd. apply strict_spec_alt. split; [by apply Hhd|].
  intros Heq. apply Hx. rewrite Heq. apply list_elem_of_fmap. by exists y.
Qed.

(** [view_summary], run on the choice "spending over time" and one of
    the three granularities. *)
Lemma view_summary_time_run (st : state A) (choice_text time_text : string)
    (rest : list string) (time_choice : Z) :
  expenses st ≠ [] →
  stdin st = choice_text :: time_text :: rest →
  Text.int (Text.strip choice_text) = Some 3 →
  Text.int (Text.strip time_text) = Some time_choice →
  granularity time_choice →
  view_summary libc_pads_year st =
    (Ok tt,
     mkState (expenses st) rest
       (stdout st ++ skipped (expenses st)
          ++ MsgSummaryHeader
             :: ((λ item, MsgPeriod item.1 item.2)
                   <$> sorted_items
                         (time_bucketed_summary libc_pads_year time_choice (expenses st))))
       (files st) (now st)).
Proof.
  intros Hne Hin Hc Ht Hg.
  destruct st as [ex inp out fs nw]; simpl in *; subst inp.
  unfold view_summary. run.
  rewrite bool_decide_false by (by destruct ex). simpl.
  rewrite Hc. run. rewrite Ht. run.
  rewrite summary_loop_run by done. simpl.
  rewrite print_all_run. unfold set_stdout. simpl.
  by rewrite <-!app_assoc.
Qed.

Lemma strftime_Y_zfill (l : list (Expense A)) (e : Expense A) (d : Datetime.date) :
  four_digit_years libc_pads_year l → e ∈ l → Datetime.strptime (date e) = Some d →
  strftime_Y libc_pads_year (Datetime.year d) = Text.zfill 4 (Datetime.year d).
Proof.
  intros [Hpad|Hyears] He Hd; unfold strftime_Y.
  - by rewrite Hpad.
  - destruct libc_pads_year; [done|].
    rewrite Forall_forall in Hyears. specialize (Hyears e He d Hd).
    apply strptime_check_date_fields, check_date_fields_true in Hd as (Hy & _).
    unfold Datetime.MAXYEAR in Hy. apply str_zfill_4. lia.
Qed.

Lemma monthly_chronological (l : list (Expense A)) :
  four_digit_years libc_pads_year l → chronological libc_pads_year 2 l.
Proof.
  intros Hyears e1 e2 d1 d2 k1 k2 He1 He2 Hd1 Hd2 [= <-] [= <-] Hlt.
  apply lt_compare in Hlt. unfold strftime_Ym in Hlt.
  rewrite (strftime_Y_zfill l e1 d1), (strftime_Y_zfill l e2 d2) in Hlt by done.
  apply strptime_check_date_fields in Hd1, Hd2.
  rewrite compare_year_month in Hlt by done.
  apply toordinal_lt; [done..|].
  destruct (Datetime.year d1 ?= Datetime.year d2) eqn:Hy; [|left|done].
  - apply Z.compare_eq_iff in Hy. rewrite Z.compare_lt_iff in Hlt. right. lia.
  - by rewrite Z.compare_lt_iff in Hy.
Qed.

Lemma daily_chronological (l : list (Expense A)) :
  canonical_dates l → chronological libc_pads_year 1 l.
Proof.
  intros Hcanon e1 e2 d1 d2 k1 k2 He1 He2 Hd1 Hd2 [= <-] [= <-] Hlt.
  unfold canonical_dates in Hcanon. rewrite Forall_forall in Hcanon.
  rewrite (Hcanon e1 He1 d1 Hd1), (Hcanon e2 He2 d2 Hd2) in Hlt.
  apply lt_compare in Hlt.
  apply strptime_check_date_fields in Hd1, Hd2.
  rewrite compare_isoformat in Hlt by done.
  apply toordinal_lt; [done..|].
  destruct (Datetime.year d1 ?= Datetime.year d2) eqn:Hy; [|left|done].
  - apply Z.compare_eq_iff in Hy. right. split; [done|].
    destruct (Datetime.month d1 ?= Datetime.month d2) eqn:Hm; [|left|done].
    + apply Z.compare_eq_iff in Hm. rewrite Z.compare_lt_iff in Hlt. right. lia.
    + by rewrite Z.compare_lt_iff in Hm.
  - by rewrite Z.compare_lt_iff in Hy.
Qed.

(** C4, as the code has it.  For each of the three granularities the
    summary is emitted with its keys in strictly ascending lexical order,
    one line for each key of the summary.  That order is the order of
    time for the monthly keys when the years are printed in four digits,
    and for the daily keys when the dates are written in their canonical
    text; the weekly keys are left out. *)
Theorem summary_emitted_in_key_order (st : state A)
    (choice_text time_text : string) (rest : list string) (time_choice : Z) :
  expenses st ≠ [] →
  stdin st = choice_text :: time_text :: rest →
  Text.int (Text.strip choice_text) = Some 3 →
  Text.int (Text.strip time_text) = Some time_choice →
  granularity time_choice →
  ∃ items,
    view_summary libc_pads_year st =
      (Ok tt,
       mkState (expenses st) rest
         (stdout st ++ skipped (expenses st)
            ++ MsgSummaryHeader :: ((λ item, MsgPeriod item.1 item.2) <$> items))
         (files st) (now st))
    ∧ items ≡ₚ map_to_list
                 (time_bucketed_summary libc_pads_year time_choice (expenses st))
    ∧ StronglySorted Text.lt items.*1
    ∧ (time_choice = 2 → four_digit_years libc_pads_year (expenses st) →
       chronological libc_pads_year 2 (expenses st))
    ∧ (time_choice = 1 → canonical_dates (expenses st) →
       chronological libc_pads_year 1 (expenses st)).
Proof.
  intros Hne Hin Hc Ht Hg.
  eexists. split; [by apply (view_summary_time_run st choice_text time_text)|].
  split; [apply sorted_items_Permutation|].
  split; [apply sorted_items_sorted|].
  split; intros _; [apply monthly_chronological|apply daily_chronological].
Qed.

(** When every date is valid, the loop buckets every record. *)
Lemma bucketed_amounts time_choice (l : list (Expense A)) :
  granularity time_choice →
  Forall (λ e, validate_date (date e) = true) l →
  (omap (bucketed libc_pads_year time_choice) l).*2 = amount <$> l.
Proof.
  intros Hg. induction 1 as [|e l He _ IH]; [done|].
  cbn [omap list_omap]. unfold validate_date in He.
  assert (∃ key, bucketed libc_pads_year time_choice e = Some (key, amount e))
    as [key ->].
  { unfold bucketed, bucket_key.
    destruct (Datetime.strptime (date e)) as [d|]; [|done].
    destruct (time_key_granularity time_choice e d Hg) as [key Hkey].
    exists key. cbn. by rewrite Hkey. }
  rewrite fmap_cons, IH. reflexivity.
Qed.

End Aggregation.

(** ** Sums that do not round *)

Section ExactSums.
Context {A : Type} `{Amount A}.
Context (value : A → Z) (ok : A → Prop) (bound : Z).
Hypothesis Hexact : exact_within value ok bound.

Lemma sumZ_cons {T} (f : T → Z) (x : T) (xs : list T) :
  sumZ f (x :: xs) = f x + sumZ f xs.
Proof. reflexivity. Qed.

Lemma size_cons (x : A) (xs : list A) :
  size value (x :: xs) = Z.abs (value x) + size value xs.
Proof. reflexivity. Qed.

Lemma sumZ_Permutation {T} (f : T → Z) (xs ys : list T) :
  xs ≡ₚ ys → sumZ f xs = sumZ f ys.
Proof. induction 1; rewrite ?sumZ_cons; [done|lia..]. Qed.

Lemma size_Permutation (xs ys : list A) : xs ≡ₚ ys → size value xs = size value ys.
Proof. apply sumZ_Permutation. Qed.

Lemma size_nonneg (xs : list A) : 0 ≤ size value xs.
Proof. induction xs; [done|]. rewrite size_cons. lia. Qed.

Lemma size_filter (P : A → Prop) `{!∀ x, Decision (P x)} (xs : list A) :
  size value (filter P xs) ≤ size value xs.
Proof.
  induction xs as [|x xs IH]; [done|]. rewrite filter_cons.
  destruct (decide (P x)); rewrite !size_cons; lia.
Qed.

(** A fold of additions that stay within the bound does not round. *)
Lemma foldl_exact (acc : A) (xs : list A) :
  ok acc → Forall ok xs → Z.abs (value acc) + size value xs ≤ bound →
  ok (foldl amount_add acc xs)
  ∧ value (foldl amount_add acc xs) = value acc + sumZ value xs.
Proof.
  revert acc. induction xs as [|x xs IH]; intros acc Hacc Hxs Hbound.
  - split; [done|]. cbn. lia.
  - apply Forall_cons in Hxs as [Hx Hxs]. rewrite size_cons in Hbound.
    pose proof (size_nonneg xs).
    destruct (exact_add _ _ _ Hexact acc x) as [Hok Hval]; [done..|lia|].
    destruct (IH (amount_add acc x)) as [Hok' Hval']; [done..|lia|].
    cbn [foldl]. rewrite sumZ_cons. split; [done|lia].
Qed.

Lemma py_sum_exact (xs : list A) :
  Forall ok xs → size value xs ≤ bound →
  ok (py_sum xs) ∧ value (py_sum xs) = sumZ value xs.
Proof.
  intros Hxs Hbound. destruct (exact_zero _ _ _ Hexact) as [H0 Hv0].
  destruct (foldl_exact amount0 xs) as [Hok Hval]; [done..|lia|].
  split; [done|]. unfold py_sum. lia.
Qed.

(** Two sums of the same values, added without rounding, are the same
    amount. *)
Lemma py_sum_same_values (xs ys : list A) :
  Forall ok xs → Forall ok ys → size value xs ≤ bound → size value ys ≤ bound →
  sumZ value xs = sumZ value ys → py_sum xs = py_sum ys.
Proof.
  intros Hxs Hys Hbx Hby Hsum.
  destruct (py_sum_exact xs) as [Hokx Hvx]; [done..|].
  destruct (py_sum_exact ys) as [Hoky Hvy]; [done..|].
  apply (exact_inj _ _ _ Hexact); [done..|lia].
Qed.

(** [d[key] += a], within the bound: the values stay exact, their sum
    grows by the value of [a], and their size by no more than its size. *)
Lemma add_to_exact (key : string) (a : A) (d : gmap string A) :
  map_Forall (λ _ v, ok v) d → ok a →
  size value (map_to_list d).*2 + Z.abs (value a) ≤ bound →
  map_Forall (λ _ v, ok v) (add_to key a d)
  ∧ sumZ value (map_to_list (add_to key a d)).*2
    = sumZ value (map_to_list d).*2 + value a
  ∧ size value (map_to_list (add_to key a d)).*2
    ≤ size value (map_to_list d).*2 + Z.abs (value a).
Proof.
  intros Hd Ha Hbound. unfold add_to.
  destruct (exact_zero _ _ _ Hexact) as [H0 Hv0].
  destruct (d !! key) as [v|] eqn:Hkey; cbn [default from_option id].
  - assert ((map_to_list d).*2 ≡ₚ v :: (map_to_list (delete key d)).*2) as Hperm.
    { symmetry. exact (fmap_Permutation snd _ _ (map_to_list_delete d key v Hkey)). }
    assert ((map_to_list (<[key := amount_add v a]> d)).*2
            ≡ₚ amount_add v a :: (map_to_list (delete key d)).*2) as Hperm'.
    { pose proof (map_to_list_insert (delete key d) key (amount_add v a)
                    (lookup_delete_eq d key)) as Hp.
      rewrite insert_delete_eq in Hp. exact (fmap_Permutation snd _ _ Hp). }
    rewrite (size_Permutation _ _ Hperm) in Hbound.
    rewrite (size_Permutation _ _ Hperm), (size_Permutation _ _ Hperm'),
      (sumZ_Permutation _ _ _ Hperm), (sumZ_Permutation _ _ _ Hperm').
    rewrite !size_cons, !sumZ_cons in *.
    pose proof (size_nonneg (map_to_list (delete key d)).*2).
    destruct (exact_add _ _ _ Hexact v a) as [Hok Hval];
      [by apply (Hd key)|done|lia|].
    split; [by apply map_Forall_insert_2|]. lia.
  - assert ((map_to_list (<[key := amount_add amount0 a]> d)).*2
            ≡ₚ amount_add amount0 a :: (map_to_list d).*2) as Hperm'.
    { exact (fmap_Permutation snd _ _
               (map_to_list_insert d key (amount_add amount0 a) Hkey)). }
    rewrite (size_Permutation _ _ Hperm'), (sumZ_Permutation _ _ _ Hperm').
    rewrite !size_cons, !sumZ_cons.
    pose proof (size_nonneg (map_to_list d).*2).
    destruct (exact_add _ _ _ Hexact amount0 a) as [Hok Hval]; [done..|lia|].
    split; [by apply map_Forall_insert_2|]. lia.
Qed.

Lemma tally_exact (pairs : list (string * A)) (d : gmap string A) :
  map_Forall (λ _ v, ok v) d → Forall ok pairs.*2 →
  size value (map_to_list d).*2 + size value pairs.*2 ≤ bound →
  map_Forall (λ _ v, ok v) (tally pairs d)
  ∧ sumZ value (map_to_list (tally pairs d)).*2
    = sumZ value (map_to_list d).*2 + sumZ value pairs.*2
  ∧ size value (map_to_list (tally pairs d)).*2
    ≤ size value (map_to_list d).*2 + size value pairs.*2.
Proof.
  revert d. induction pairs as [|[k a] pairs IH]; intros d Hd Hpairs Hbound.
  - split; [done|]. cbn. lia.
  - rewrite fmap_cons in *. cbn [snd] in *. rewrite size_cons in *.
    apply Forall_cons in Hpairs as [Ha Hpairs].
    pose proof (size_nonneg pairs.*2).
    destruct (add_to_exact k a d) as (Hd' & Hsum' & Hsize'); [done..|lia|].
    rewrite tally_cons. cbn [fst snd].
    destruct (IH (add_to k a d)) as (Hd'' & Hsum'' & Hsize''); [done..|lia|].
    rewrite sumZ_cons. split; [done|]. lia.
Qed.

(** The values of a tally, added in any order without rounding, give
    the sum of the amounts tallied. *)
Lemma py_sum_tally (pairs : list (string * A)) (xs : list A) :
  Forall ok pairs.*2 → size value pairs.*2 ≤ bound →
  xs ≡ₚ (map_to_list (tally pairs ∅)).*2 →
  py_sum xs = py_sum pairs.*2.
Proof.
  intros Hpairs Hbound Hxs.
  destruct (tally_exact pairs ∅) as (Hd & Hsum & Hsize);
    [apply map_Forall_empty|done|by rewrite map_to_list_empty|].
  rewrite map_to_list_empty in Hsum, Hsize.
  change (size value [].*2) with 0 in Hsize.
  change (sumZ value [].*2) with 0 in Hsum.
  apply py_sum_same_values; [|done| |done|].
  - rewrite Hxs. apply Forall_fmap.
    apply map_Forall_to_list in Hd.
    eapply Forall_impl; [exact Hd|]. by intros [k v].
  - rewrite (size_Permutation _ _ Hxs). lia.
  - rewrite (sumZ_Permutation _ _ _ Hxs). lia.
Qed.

End ExactSums.

(** *** Whole amounts in binary64

    Additions of whole numbers below 2^53 do not round: [SFadd] is read
    from the specification of binary64 of the library. *)

Lemma iter_pos_swap {T} (f : T → T) (p : positive) (x : T) :
  SpecFloat.iter_pos f p (f x) = f (SpecFloat.iter_pos f p x).
Proof.
  revert x. induction p as [p IH|p IH|]; intros x; simpl; [| |done].
  - by rewrite !IH.
  - by rewrite !IH.
Qed.

Lemma iter_pos_succ {T} (f : T → T) (p : positive) (x : T) :
  SpecFloat.iter_pos f (Pos.succ p) x = SpecFloat.iter_pos f p (f x).
Proof.
  revert x. induction p as [p IH|p IH|]; intros x; simpl; [|done..].
  rewrite !IH. by rewrite !iter_pos_swap.
Qed.

Lemma binary_round_double (s : bool) (p : positive) (e : Z) :
  binary_round prec emax s (xO p) e = binary_round prec emax s p (e + 1).
Proof.
  unfold binary_round.
  assert (Z.pos (digits2_pos p~0) + e = Z.pos (digits2_pos p) + (e + 1)) as Hd
    by (cbn [digits2_pos]; lia).
  rewrite Hd.
  set (f := fexp prec emax (Z.pos (digits2_pos p) + (e + 1))).
  unfold shl_align.
  destruct (f - e) as [|k|k] eqn:Hfe.
  - replace (f - (e + 1)) with (Z.neg 1) by lia. cbn [Pos.iter].
    replace f with e by lia. done.
  - assert (f - (e + 1) = 0 ∨ ∃ k', k = Pos.succ k' ∧ f - (e + 1) = Z.pos k')
      as [Hk|(k' & -> & Hk)].
    { destruct (Pos.eq_dec k 1%positive) as [->|Hne]; [left; lia|right].
      exists (Pos.pred k). rewrite Pos.succ_pred by done. split; [done|lia]. }
    + rewrite Hk. assert (k = 1%positive) as -> by lia.
      unfold binary_round_aux, shr_fexp. cbn [Zdigits2 shr_record_of_loc].
      rewrite Hd. fold f. rewrite Hfe, Hk. cbn [shr SpecFloat.iter_pos shr_1 orb].
      replace (e + 1 + 0) with (e + 1) by lia. done.
    + rewrite Hk.
      unfold binary_round_aux, shr_fexp. cbn [Zdigits2 shr_record_of_loc].
      rewrite Hd. fold f. rewrite Hfe, Hk. cbn [shr].
      rewrite iter_pos_succ. cbn [shr_1 orb].
      replace (e + Z.pos (Pos.succ k')) with (e + 1 + Z.pos k') by lia. done.
  - replace (f - (e + 1)) with (Z.neg (Pos.succ k)) by lia.
    by rewrite Pos.iter_succ_r.
Qed.

Lemma binary_normalize_double (m e : Z) (s : bool) :
  binary_normalize prec emax (2 * m) e s = binary_normalize prec emax m (e + 1) s.
Proof. destruct m as [|p|p]; [done|apply binary_round_double..]. Qed.

(** Rounding depends on the value only: a mantissa with [j] more zeros
    at its end, on an exponent less by [j]. *)
Lemma binary_normalize_shift (j : nat) (m e : Z) (s : bool) :
  binary_normalize prec emax (m * 2 ^ Z.of_nat j) e s
  = binary_normalize prec emax m (e + Z.of_nat j) s.
Proof.
  revert e. induction j as [|j IH]; intros e.
  - by rewrite Z.mul_1_r, Z.add_0_r.
  - rewrite Nat2Z.inj_succ, Z.pow_succ_r by lia.
    replace (m * (2 * 2 ^ Z.of_nat j)) with (2 * (m * 2 ^ Z.of_nat j)) by lia.
    rewrite binary_normalize_double, IH. f_equal. lia.
Qed.

(** A mantissa of 53 digits on an exponent of binary64 is not rounded. *)
Lemma binary_round_canonical (s : bool) (m : positive) (e : Z) :
  Z.pos (digits2_pos m) = 53 → -1074 ≤ e ≤ 971 →
  binary_round prec emax s m e = S754_finite s m e.
Proof.
  intros Hd He.
  assert (fexp prec emax (Z.pos (digits2_pos m) + e) = e) as Hf.
  { rewrite Hd. unfold fexp, emin, prec, emax. lia. }
  unfold binary_round. rewrite Hf. unfold shl_align. rewrite Z.sub_diag.
  unfold binary_round_aux, shr_fexp. cbn [Zdigits2 shr_record_of_loc].
  rewrite Hf, Z.sub_diag. cbn [shr shr_m loc_of_shr_record round_nearest_even].
  cbn [Zdigits2]. rewrite Hf, Z.sub_diag. cbn [shr shr_m shr_record_of_loc].
  assert ((e <=? emax - prec) = true) as -> by (unfold emax, prec; lia).
  done.
Qed.

Lemma digits2_pos_lower (p : positive) : 2 ^ (Z.pos (digits2_pos p) - 1) ≤ Z.pos p.
Proof.
  induction p as [p IH|p IH|]; cbn [digits2_pos]; [| |done].
  - rewrite Pos2Z.inj_succ.
    replace (Z.succ (Z.pos (digits2_pos p)) - 1)
      with (Z.succ (Z.pos (digits2_pos p) - 1)) by lia.
    rewrite Z.pow_succ_r by lia. lia.
  - rewrite Pos2Z.inj_succ.
    replace (Z.succ (Z.pos (digits2_pos p)) - 1)
      with (Z.succ (Z.pos (digits2_pos p) - 1)) by lia.
    rewrite Z.pow_succ_r by lia. lia.
Qed.

Lemma digits2_pos_upper (p : positive) : Z.pos p < 2 ^ Z.pos (digits2_pos p).
Proof.
  induction p as [p IH|p IH|]; cbn [digits2_pos]; [| |done].
  - rewrite Pos2Z.inj_succ, Z.pow_succ_r by lia. lia.
  - rewrite Pos2Z.inj_succ, Z.pow_succ_r by lia. lia.
Qed.

(** [j] zeros more at the end of a mantissa. *)
Lemma shift_value (j : nat) (p : positive) :
  Z.pos (Nat.iter j xO p) = Z.pos p * 2 ^ Z.of_nat j.
Proof.
  induction j as [|j IH]; [cbn; lia|].
  rewrite Nat2Z.inj_succ, Z.pow_succ_r by lia. rewrite Nat.iter_succ.
  rewrite Pos2Z.inj_xO, IH. lia.
Qed.

Lemma shift_digits (j : nat) (p : positive) :
  Z.pos (digits2_pos (Nat.iter j xO p)) = Z.pos (digits2_pos p) + Z.of_nat j.
Proof.
  induction j as [|j IH]; [cbn; lia|].
  rewrite Nat.iter_succ. cbn [digits2_pos]. rewrite Pos2Z.inj_succ, IH. lia.
Qed.

(** The binary64 number of a whole number below 2^53: its digits, with
    zeros after them up to 53 digits. *)
Lemma SF_of_Z_pos (s : bool) (p : positive) :
  Z.pos p < 2 ^ 53 →
  let j := Z.to_nat (53 - Z.pos (digits2_pos p)) in
  binary_round prec emax s p 0 = S754_finite s (Nat.iter j xO p) (- Z.of_nat j).
Proof.
  intros Hp j.
  assert (Z.pos (digits2_pos p) ≤ 53) as Hd.
  { pose proof (digits2_pos_lower p) as Hlow.
    destruct (decide (Z.pos (digits2_pos p) ≤ 53)) as [|Hgt]; [done|].
    assert (2 ^ 53 ≤ 2 ^ (Z.pos (digits2_pos p) - 1)) by (apply Z.pow_le_mono_r; lia).
    lia. }
  assert (∀ q e, binary_round prec emax s q e
                 = binary_normalize prec emax (cond_Zopp s (Z.pos q)) e false) as Hround
    by (intros q e; by destruct s).
  rewrite Hround.
  replace 0 with (- Z.of_nat j + Z.of_nat j) at 1 by lia.
  rewrite <-binary_normalize_shift.
  replace (cond_Zopp s (Z.pos p) * 2 ^ Z.of_nat j)
    with (cond_Zopp s (Z.pos (Nat.iter j xO p)))
    by (rewrite shift_value; destruct s; cbn [cond_Zopp]; lia).
  rewrite <-Hround.
  apply binary_round_canonical; [rewrite shift_digits|]; lia.
Qed.

(** The binary64 number of a whole number other than 0, below 2^53. *)
Lemma SF_of_Z_finite (n : Z) :
  n ≠ 0 → Z.abs n < 2 ^ 53 →
  ∃ s m j, SF_of_Z n = S754_finite s m (- Z.of_nat j)
           ∧ cond_Zopp s (Z.pos m) = n * 2 ^ Z.of_nat j
           ∧ (j ≤ 52)%nat.
Proof.
  intros Hn Hlt. destruct n as [|p|p]; [done|..].
  - exists false, (Nat.iter (Z.to_nat (53 - Z.pos (digits2_pos p))) xO p),
      (Z.to_nat (53 - Z.pos (digits2_pos p))).
    split; [apply (SF_of_Z_pos false p); lia|].
    split; [apply shift_value|lia].
  - exists true, (Nat.iter (Z.to_nat (53 - Z.pos (digits2_pos p))) xO p),
      (Z.to_nat (53 - Z.pos (digits2_pos p))).
    split; [apply (SF_of_Z_pos true p); lia|].
    split; [|lia]. cbn [cond_Zopp]. rewrite shift_value. lia.
Qed.

Lemma SF_of_Z_value (n : Z) : Z.abs n < 2 ^ 53 → SF_value (SF_of_Z n) = n * 2 ^ 1074.
Proof.
  intros Hlt. destruct (decide (n = 0)) as [->|Hn]; [done|].
  destruct (SF_of_Z_finite n Hn Hlt) as (s & m & j & -> & Hm & Hj).
  cbn [SF_value]. change (if s then - Z.pos m else Z.pos m) with (cond_Zopp s (Z.pos m)).
  rewrite Hm, <-Z.mul_assoc, <-Z.pow_add_r by lia. do 2 f_equal. lia.
Qed.

Lemma Pos_iter_xO_value (k p : positive) :
  Z.pos (Pos.iter xO p k) = Z.pos p * 2 ^ Z.pos k.
Proof.
  induction k as [|k IH] using Pos.peano_ind; [cbn; lia|].
  rewrite Pos.iter_succ, Pos2Z.inj_xO, IH, Pos2Z.inj_succ, Z.pow_succ_r by lia. lia.
Qed.

(** Aligning a mantissa on a lesser exponent keeps the value. *)
Lemma shl_align_value (mx : positive) (ex ez : Z) :
  ez ≤ ex → Z.pos (fst (shl_align mx ex ez)) = Z.pos mx * 2 ^ (ex - ez).
Proof.
  intros Hle. unfold shl_align. destruct (ez - ex) as [|k|k] eqn:Hk; cbn [fst].
  - replace (ex - ez) with 0 by lia. lia.
  - lia.
  - rewrite Pos_iter_xO_value. f_equal. f_equal. lia.
Qed.

(** The sum of the binary64 numbers of two whole numbers is the binary64
    number of their sum. *)
Lemma SFadd_whole (a b : Z) :
  Z.abs a < 2 ^ 53 → Z.abs b < 2 ^ 53 →
  SFadd prec emax (SF_of_Z a) (SF_of_Z b) = SF_of_Z (a + b).
Proof.
  intros Ha Hb.
  destruct (decide (a = 0)) as [->|Ha0], (decide (b = 0)) as [->|Hb0].
  - done.
  - destruct (SF_of_Z_finite b Hb0 Hb) as (s & m & j & Hform & _). by rewrite Hform.
  - destruct (SF_of_Z_finite a Ha0 Ha) as (s & m & j & Hform & _).
    rewrite Z.add_0_r, Hform. done.
  - destruct (SF_of_Z_finite a Ha0 Ha) as (sa & ma & ja & -> & Hma & Hja).
    destruct (SF_of_Z_finite b Hb0 Hb) as (sb & mb & jb & -> & Hmb & Hjb).
    cbn [SFadd]. set (ez := Z.min (- Z.of_nat ja) (- Z.of_nat jb)).
    assert (∀ s m e, ez ≤ e →
              cond_Zopp s (Z.pos (fst (shl_align m e ez)))
              = cond_Zopp s (Z.pos m) * 2 ^ (e - ez)) as Halign.
    { intros s m e He. rewrite shl_align_value by done. destruct s; cbn [cond_Zopp]; lia. }
    rewrite !Halign by lia. rewrite Hma, Hmb.
    replace (a * 2 ^ Z.of_nat ja * 2 ^ (- Z.of_nat ja - ez)
             + b * 2 ^ Z.of_nat jb * 2 ^ (- Z.of_nat jb - ez))
      with ((a + b) * 2 ^ Z.of_nat (Z.to_nat (- ez))).
    + rewrite binary_normalize_shift. unfold SF_of_Z. f_equal. lia.
    + rewrite <-!Z.mul_assoc, <-!Z.pow_add_r by lia.
      replace (Z.of_nat ja + (- Z.of_nat ja - ez)) with (- ez) by lia.
      replace (Z.of_nat jb + (- Z.of_nat jb - ez)) with (- ez) by lia.
      rewrite Z2Nat.id by lia. lia.
Qed.

(** The whole amounts add without rounding while their sizes stay below
    2^53. *)
Lemma whole_amount_value (x : PrimFloat.float) (n : Z) :
  Z.abs n < 2 ^ 53 → Prim2SF x = SF_of_Z n → float_value x = n * 2 ^ 1074.
Proof. intros Hn Hx. unfold float_value. rewrite Hx. by apply SF_of_Z_value. Qed.

Lemma whole_amounts_exact : exact_within float_value whole_amount whole_bound.
Proof.
  assert (0 < 2 ^ 1074) as Hunit by (by apply Z.pow_pos_nonneg).
  split.
  - split; [|reflexivity]. exists 0. split; [done|reflexivity].
  - intros x y (n & Hn & Hx) (m & Hm & Hy).
    rewrite (whole_amount_value x n), (whole_amount_value y m) by done.
    rewrite !Z.abs_mul, (Z.abs_eq (2 ^ 1074)), <-Z.mul_add_distr_r by lia.
    unfold whole_bound. intros Hbound%Z.mul_le_mono_pos_r; [|done].
    assert (Prim2SF (amount_add x y) = SF_of_Z (n + m)) as Hsum.
    { cbn [amount_add float_amount]. rewrite add_spec, Hx, Hy.
      by apply SFadd_whole. }
    split; [exists (n + m); split; [lia|done]|].
    rewrite (whole_amount_value _ (n + m)) by (done || lia). lia.
  - intros x y (n & Hn & Hx) (m & Hm & Hy).
    rewrite (whole_amount_value x n), (whole_amount_value y m) by done.
    intros Hval%Z.mul_reg_r; [|lia]. subst m.
    rewrite <-(SF2Prim_Prim2SF x), <-(SF2Prim_Prim2SF y). by rewrite Hx, Hy.
Qed.

(** The amounts of a ledger of whole amounts are added without
    rounding. *)
Lemma whole_ledger_adds_exactly (l : list (Expense PrimFloat.float)) :
  whole_ledger l → adds_exactly float_value whole_amount whole_bound l.
Proof.
  intros (ns & Hns & Hsum). split; [apply whole_amounts_exact|].
  assert (0 < 2 ^ 1074) as Hunit by (by apply Z.pow_pos_nonneg).
  assert (∀ n, In n ns → Z.abs n ≤ sumZ Z.abs ns) as Hle.
  { clear. induction ns as [|m ns IH]; [done|]. rewrite sumZ_cons.
    assert (0 ≤ sumZ Z.abs ns) by (clear; induction ns; [done|]; rewrite sumZ_cons; lia).
    intros n [->|Hn]; [lia|]. specialize (IH n Hn). lia. }
  assert (Forall (λ e, whole_amount (amount e)) l
          ∧ size float_value (amount <$> l) = sumZ Z.abs ns * 2 ^ 1074) as [Hwhole Hsize].
  { assert (∀ n, In n ns → Z.abs n < 2 ^ 53) as Hlt
      by (intros n Hn; specialize (Hle n Hn); lia).
    clear Hsum Hle. induction Hns as [|e n l ns He _ IH]; [done|].
    destruct IH as [IH1 IH2]; [intros m Hm; apply Hlt; by right|].
    assert (Z.abs n < 2 ^ 53) as Hn by (apply Hlt; by left).
    split; [constructor; [by exists n|done]|].
    rewrite fmap_cons, size_cons, sumZ_cons, IH2, (whole_amount_value _ n) by done.
    rewrite Z.abs_mul, (Z.abs_eq (2 ^ 1074)) by lia. lia. }
  split; [done|]. rewrite Hsize. unfold whole_bound.
  apply Z.mul_le_mono_nonneg_r; lia.
Qed.

Lemma round_ledger_whole : whole_ledger round_ledger.
Proof.
  exists [100; 50; 25]. split; [|done].
  repeat constructor; vm_compute; reflexivity.
Qed.

Section BucketSums.
Variable libc_pads_year : bool.

(** C10, as the code has it.  When every date of the ledger passes
    [validate_date], the loop of [view_summary] completes, for each of
    the three granularities, with a summary that partitions the ledger:
    every record is in the bucket of its key, which is a key of the
    summary, and the value under a key is the sum of the amounts of the
    records of that bucket, so that no amount is lost or counted twice.
    The values of the summary add up to the overall total when the
    additions of the amounts of the ledger do not round: so when the
    amounts are whole numbers whose absolute values add up to less than
    2^53. *)
Theorem buckets_sum_to_total time_choice (l : list (Expense PrimFloat.float))
    (st : state PrimFloat.float) :
  granularity time_choice →
  Forall (λ e, validate_date (date e) = true) l →
  ∃ summary st',
    summary_loop libc_pads_year time_choice l ∅ st = (Ok (Some summary), st')
    ∧ (∀ e, e ∈ l →
         ∃ key, bucket_key libc_pads_year time_choice e = Some key
                ∧ is_Some (summary !! key))
    ∧ (∀ key v, summary !! key = Some v →
         v = py_sum (amount <$> filter
               (λ e, bucket_key libc_pads_year time_choice e = Some key) l))
    ∧ (∀ ok bound, adds_exactly float_value ok bound l →
         py_sum (sorted_items summary).*2 = total_overall l)
    ∧ (whole_ledger l → py_sum (sorted_items summary).*2 = total_overall l).
Proof.
  intros Hg Hvalid. eexists _, _. split; [by apply summary_loop_run|].
  change (tally (omap (bucketed libc_pads_year time_choice) l) ∅)
    with (time_bucketed_summary libc_pads_year time_choice l).
  assert (∀ ok bound, adds_exactly float_value ok bound l →
            py_sum (sorted_items (time_bucketed_summary libc_pads_year time_choice l)).*2
            = total_overall l) as Hsums.
  { intros ok bound (Hexact & Hok & Hsize). unfold total_overall.
    rewrite <-(bucketed_amounts libc_pads_year time_choice l Hg Hvalid) in *.
    apply (py_sum_tally float_value ok bound Hexact); [|done|].
    + rewrite (bucketed_amounts libc_pads_year) by done. by apply Forall_fmap.
    + apply fmap_Permutation, merge_sort_Permutation. }
  split; [|split; [|split]].
  - intros e He. rewrite Forall_forall in Hvalid. specialize (Hvalid e He).
    unfold validate_date in Hvalid.
    destruct (Datetime.strptime (date e)) as [d|] eqn:Hd; [|done].
    destruct (time_key_granularity libc_pads_year time_choice e d Hg) as [key Hkey].
    assert (bucket_key libc_pads_year time_choice e = Some key) as Hbucket
      by (unfold bucket_key; by rewrite Hd).
    exists key. split; [done|]. rewrite time_bucketed_summary_lookup.
    assert (e ∈ filter (λ e, bucket_key libc_pads_year time_choice e = Some key) l)
      as Hin by (by apply list_elem_of_filter).
    destruct (filter _ l); [by apply elem_of_nil in Hin|by eexists].
  - intros key v. rewrite time_bucketed_summary_lookup.
    destruct (filter _ l); [done|]. by intros [= <-].
  - exact Hsums.
  - intros Hwhole. by apply (Hsums _ _ (whole_ledger_adds_exactly l Hwhole)).
Qed.

End BucketSums.

(** ** The menu loop *)

Section Menu.
Context {A : Type} `{Amount A} `{FloatOf A}.
Variable libc_pads_year : bool.

Ltac shorter :=
  repeat first
    [ apply (preserves_print_all input_shorter input_shorter_print)
    | apply (input_shorter_set_expenses (λ st, _))
    | apply (input_shorter_set_files (λ st, _))
    | preserves_step ].

Lemma input_shorter_add_expenses :
  preserves input_shorter (add_expenses (A:=A) libc_pads_year).
Proof. unfold add_expenses. shorter. Qed.

Lemma input_shorter_edit_expense : preserves input_shorter (edit_expense (A:=A)).
Proof. unfold edit_expense. shorter. Qed.

Lemma input_shorter_delete_expense : preserves input_shorter (delete_expense (A:=A)).
Proof. unfold delete_expense. shorter. Qed.

Lemma input_shorter_view_summary :
  preserves input_shorter (view_summary (A:=A) libc_pads_year).
Proof.
  apply preserves_view_summary;
    [apply _|apply input_shorter_print|apply input_shorter_input].
Qed.

Lemma input_shorter_graphical_summary :
  preserves input_shorter (graphical_summary (A:=A)).
Proof. apply preserves_graphical_summary; [apply _|apply input_shorter_print]. Qed.

(** One turn of the menu reads a line; what it calls adds none. *)
Lemma menu_turn_continues {T} (m : M A T) (k : M A bool) (st : state A) (n : nat) :
  preserves input_shorter m →
  (∀ st', (length (stdin st') < n)%nat → (k st').1 ≠ Ok false) →
  (length (stdin st) < n)%nat →
  ((m ≫= λ _, k) st).1 ≠ Ok false.
Proof.
  intros Hm Hk Hlen. specialize (Hm st). unfold input_shorter in Hm.
  unfold mbind, M_bind. destruct (m st) as [[x|e] st']; simpl in *; [|done].
  apply Hk. lia.
Qed.

(** The turns never run out before the input does: with more turns than
    lines of input the loop leaves through "6" or ends with an exception
    (the [EOFError] of [input] at the latest). *)
Lemma menu_loop_enough_fuel (fuel : nat) (st : state A) :
  (length (stdin st) < fuel)%nat →
  (menu_loop libc_pads_year fuel st).1 ≠ Ok false.
Proof.
  revert st. induction fuel as [|fuel IH]; intros st Hlen; [lia|].
  destruct st as [ex [|line rest] out fs nw]; [done|].
  cbn [menu_loop]. unfold mbind at 1 2, M_bind at 1 2, print, modify, input.
  cbn [stdin set_stdout set_stdin stdout expenses files now fst snd].
  repeat case_bool_decide;
    try (apply (menu_turn_continues _ _ _ fuel);
         [first [ apply input_shorter_add_expenses
                | apply input_shorter_view_summary
                | apply input_shorter_edit_expense
                | apply input_shorter_delete_expense
                | apply input_shorter_graphical_summary
                | apply input_shorter_print ]
         | apply IH | simpl in *; lia]).
  by run.
Qed.

Lemma input_shorter_load_from_file (filename : string) :
  preserves input_shorter (load_from_file (A:=A) filename).
Proof.
  unfold load_from_file.
  repeat first
    [ apply (preserves_modify input_shorter); intros ?; by unfold input_shorter
    | preserves_step ].
Qed.

(** X4.  The program with more turns than lines of input runs to its end:
    it leaves through "6" or ends with an exception. *)
Theorem main_enough_fuel (fuel : nat) (st : state A) :
  (length (stdin st) < fuel)%nat →
  (main libc_pads_year fuel st).1 ≠ Ok false.
Proof.
  intros Hlen. unfold main.
  apply (menu_turn_continues _ _ _ fuel); [| |done].
  - apply (input_shorter_set_expenses (λ _, [])).
  - intros st' Hlen'. apply (menu_turn_continues _ _ _ fuel); [| |done].
    + apply input_shorter_load_from_file.
    + apply menu_loop_enough_fuel.
Qed.

End Menu.

(** ** The statements, run on the samples *)

Lemma add_expenses_date_gate_witness :
  expenses (add_expenses false (sample_state ["12"; "Fun"; "2024-02-30"])).2
    = sample_ledger
  ∧ expenses (add_expenses false (sample_state ["12"; "Fun"; "2024-02-29"])).2
    = sample_ledger ++ [mkExpense 12 "Fun" "2024-02-29"].
Proof.
  split.
  - rewrite (add_expenses_date_gate false (sample_state ["12"; "Fun"; "2024-02-30"])
               "12" "Fun" "2024-02-30" [] eq_refl).
    reflexivity.
  - rewrite (add_expenses_date_gate false (sample_state ["12"; "Fun"; "2024-02-29"])
               "12" "Fun" "2024-02-29" [] eq_refl).
    reflexivity.
Defined.

Lemma edit_expense_partial_witness :
  expenses (edit_expense (sample_state ["2"; "abc"; "Bar"; "2024-13-01"])).2
  = [mkExpense 100 "Food" "2024-01-01"; mkExpense 50 "Bar" "2024-03-04";
     mkExpense 25 "Rent" "2024-01-08"].
Proof.
  rewrite (edit_expense_partial (sample_state ["2"; "abc"; "Bar"; "2024-13-01"])
             "2" "abc" "Bar" "2024-13-01" [] 2 (mkExpense 50 "food" "2024-03-04")
             eq_refl eq_refl ltac:(simpl; lia) eq_refl).
  reflexivity.
Defined.

(** C3, as the claim states it, fails: "Food" and "food" are two keys of
    the totals of the chart. *)
Lemma category_totals_case_sensitive :
  ¬ case_insensitive_grouping sample_ledger.
Proof.
  intros Hclaim.
  specialize (Hclaim "Food" "food").
  assert ("Food" = "food") as Heq; [|discriminate Heq].
  apply Hclaim; [by vm_compute; eexists..|reflexivity].
Qed.

Lemma buckets_sum_to_total_witness :
  ∃ summary st',
    summary_loop false 3 round_ledger ∅
      (mkState round_ledger [] [] ∅ (Datetime.Date 2026 11 3))
    = (Ok (Some summary), st')
    ∧ py_sum (sorted_items summary).*2 = total_overall round_ledger.
Proof.
  destruct (buckets_sum_to_total false 3 round_ledger
              (mkState round_ledger [] [] ∅ (Datetime.Date 2026 11 3)))
    as (summary & st' & Hrun & _ & _ & _ & Hsum).
  - right. right. reflexivity.
  - repeat constructor.
  - exists summary, st'. split; [exact Hrun|].
    apply Hsum, round_ledger_whole.
Defined.

(** C10, as the claim states it, fails for binary64 amounts: the daily
    buckets hold 1.2000000000000002 and 0.1, which add up to
    1.3000000000000003, while the overall total is 1.3. *)
Lemma float_buckets_miss_total :
  Forall (λ e, validate_date (date e) = true) float_ledger
  ∧ py_sum (sorted_items (time_bucketed_summary false 1 float_ledger)).*2
    ≠ total_overall float_ledger.
Proof.
  split; [repeat constructor|].
  intros Heq.
  apply (f_equal (λ x, PrimFloat.eqb x (total_overall float_ledger))) in Heq.
  vm_compute in Heq. discriminate Heq.
Qed.

(** C1, as the claim states it, fails: the amount of a record dated
    2024-01-01 is under "2024-W1", and "2024-W01" is no key. *)
Lemma weekly_key_is_not_zero_padded :
  time_bucketed_summary false 3 [mkExpense 100 "Food" "2024-01-01"] !! "2024-W01"
    = None
  ∧ time_bucketed_summary false 3 [mkExpense 100 "Food" "2024-01-01"] !! "2024-W1"
    = Some 100.
Proof. split; reflexivity. Qed.

Lemma weekly_bucket_key_witness :
  time_bucketed_summary false 3 sample_ledger !! "2024-W10" = Some 50.
Proof.
  destruct (weekly_bucket_key false sample_ledger (mkExpense 50 "food" "2024-03-04")
              (Datetime.Date 2024 3 4) (sample_state []))
    as (_ & _ & _ & _ & Hkey & _).
  - apply list_elem_of_In. right. left. reflexivity.
  - reflexivity.
  - exact Hkey.
Defined.

(** C4, as the claim states it, fails for the weekly keys: week 10 of
    2024 is emitted before week 2, "2024-W10" being lexically before
    "2024-W2", though the 4th of March is after the 8th of January. *)
Lemma weekly_keys_not_chronological :
  stdout (view_summary false (sample_state ["3"; "3"])).2
    = [MsgSummaryHeader; MsgPeriod "2024-W1" 100; MsgPeriod "2024-W10" 50;
       MsgPeriod "2024-W2" 25]
  ∧ ¬ chronological false 3 sample_ledger.
Proof.
  split; [reflexivity|].
  intros Hclaim.
  specialize (Hclaim (mkExpense 50 "food" "2024-03-04")
                     (mkExpense 25 "Rent" "2024-01-08")
                     (Datetime.Date 2024 3 4) (Datetime.Date 2024 1 8)
                     "2024-W10" "2024-W2").
  assert (Datetime.toordinal (Datetime.Date 2024 3 4)
          < Datetime.toordinal (Datetime.Date 2024 1 8)) as Hlt; [|by vm_compute in Hlt].
  apply Hclaim; try reflexivity.
  - apply list_elem_of_In. right. left. reflexivity.
  - apply list_elem_of_In. right. right. left. reflexivity.
  - by apply lt_compare.
Qed.

Lemma summary_emitted_in_key_order_witness :
  stdout (view_summary false (sample_state ["3"; "2"])).2
    = [MsgSummaryHeader; MsgPeriod "2024-01" 125; MsgPeriod "2024-03" 50]
  ∧ chronological false 2 sample_ledger.
Proof.
  destruct (summary_emitted_in_key_order false (sample_state ["3"; "2"])
              "3" "2" [] 2)
    as (items & Hrun & _ & _ & Hmonthly & _).
  - discriminate.
  - reflexivity.
  - reflexivity.
  - reflexivity.
  - right. left. reflexivity.
  - split; [reflexivity|].
    apply Hmonthly; [reflexivity|]. right.
    repeat constructor; intros d [= <-]; by vm_compute.
Defined.

Lemma spec_dates_pass_witness : validate_date "2024-02-29" = true.
Proof. apply spec_dates_pass. reflexivity. Defined.

Lemma delete_expense_run_witness :
  expenses (delete_expense (sample_state ["2"])).2
    = [mkExpense 100 "Food" "2024-01-01"; mkExpense 25 "Rent" "2024-01-08"]
  ∧ expenses (delete_expense (sample_state ["4"])).2 = sample_ledger
  ∧ expenses (delete_expense (sample_state ["0"])).2 = sample_ledger.
Proof.
  rewrite (delete_expense_run (sample_state ["2"]) "2" [] 2),
          (delete_expense_run (sample_state ["4"]) "4" [] 4),
          (delete_expense_run (sample_state ["0"]) "0" [] 0);
    try discriminate; try reflexivity.
  repeat split.
Defined.

Lemma main_enough_fuel_witness :
  (main false 2 (mkState sample_ledger ["6"] [] ∅ (Datetime.Date 2026 11 3))).1
  ≠ Ok false.
Proof. apply main_enough_fuel. simpl. lia. Defined.


(** * Further properties *)

(** ** Canonical dates are read back *)

Section Canonical.
Import Datetime.

Lemma digit_of_digit_char (v : Z) :
  0 ≤ v ≤ 9 → digit_of (Text.digit_char v) = Some v.
Proof.
  intros Hv. unfold digit_of, Text.digit_char.
  rewrite N_ascii_embedding by lia. rewrite Z2N.id by lia.
  assert ((48 <=? 48 + v) && (48 + v <=? 57) = true) as ->
    by (apply andb_true_intro; split; lia).
  f_equal. lia.
Qed.

(** A text of ten characters, digits and dashes in their places, is read
    as the date its digits spell. *)
Lemma strptime_ten_chars (a1 a2 a3 a4 b1 b2 c1 c2 : Z) :
  0 ≤ a1 ≤ 9 → 0 ≤ a2 ≤ 9 → 0 ≤ a3 ≤ 9 → 0 ≤ a4 ≤ 9 →
  0 ≤ b1 ≤ 9 → 0 ≤ b2 ≤ 9 → 0 ≤ c1 ≤ 9 → 0 ≤ c2 ≤ 9 →
  1 ≤ 10 * b1 + b2 ≤ 12 → 1 ≤ 10 * c1 + c2 ≤ 31 →
  strptime
    (String (Text.digit_char a1) (String (Text.digit_char a2)
    (String (Text.digit_char a3) (String (Text.digit_char a4)
    (String "-" (String (Text.digit_char b1) (String (Text.digit_char b2)
    (String "-" (String (Text.digit_char c1) (String (Text.digit_char c2) ""))))))))))
  = new_date (1000 * a1 + 100 * a2 + 10 * a3 + a4) (10 * b1 + b2) (10 * c1 + c2).
Proof.
  intros Ha1 Ha2 Ha3 Ha4 Hb1 Hb2 Hc1 Hc2 Hm Hd.
  destruct (re_m_two_digits (Text.digit_char b1) (Text.digit_char b2)
              (String "-" (String (Text.digit_char c1) (String (Text.digit_char c2) "")))
              b1 b2) as [alts_m Hre_m]; [by apply digit_of_digit_char..|done|].
  destruct (re_d_two_digits (Text.digit_char c1) (Text.digit_char c2) "" c1 c2)
    as [alts_d Hre_d]; [by apply digit_of_digit_char..|done|].
  unfold strptime, regex_match, re_Y.
  rewrite !digit_of_digit_char by done. cbn [mbind option_bind].
  rewrite lit_same. cbn [mbind option_bind].
  rewrite Hre_m. cbn [first_match]. rewrite lit_same. cbn [mbind option_bind].
  rewrite Hre_d. cbn [first_match mbind option_bind].
  by destruct (decide ("" = "")).
Qed.

Lemma isoformat_chars (d : date) :
  Text.isoformat d =
    String (Text.digit_char ((year d / 1000) mod 10))
   (String (Text.digit_char ((year d / 100) mod 10))
   (String (Text.digit_char ((year d / 10) mod 10))
   (String (Text.digit_char ((year d / 1) mod 10))
   (String "-"
   (String (Text.digit_char ((month d / 10) mod 10))
   (String (Text.digit_char ((month d / 1) mod 10))
   (String "-"
   (String (Text.digit_char ((day d / 10) mod 10))
   (String (Text.digit_char ((day d / 1) mod 10)) ""))))))))).
Proof. reflexivity. Qed.

(** The canonical text of a date of the calendar is read back by
    [strptime] as that date. *)
Lemma strptime_isoformat (d : date) :
  check_date_fields (year d) (month d) (day d) = true →
  strptime (Text.isoformat d) = Some d.
Proof.
  intros Hd. pose proof (date_field_bounds d Hd) as (Hy & Hm & Hdd).
  change (10 ^ Z.of_nat 4) with 10000 in Hy.
  change (10 ^ Z.of_nat 2) with 100 in Hm, Hdd.
  pose proof Hd as (_ & Hm' & Hd')%check_date_fields_true.
  assert (days_in_month (year d) (month d) ≤ 31) as H31.
  { unfold days_in_month. destruct (_ && _); [lia|].
    assert (Z.to_nat (month d) < 13)%nat as Hlt by lia.
    destruct (Z.to_nat (month d)) as [|[|[|[|[|[|[|[|[|[|[|[|[|?]]]]]]]]]]]]];
      cbn; lia. }
  rewrite isoformat_chars, strptime_ten_chars.
  - unfold new_date.
    replace (1000 * ((year d / 1000) mod 10) + 100 * ((year d / 100) mod 10)
             + 10 * ((year d / 10) mod 10) + (year d / 1) mod 10)
      with (year d) by (Z.div_mod_to_equations; lia).
    replace (10 * ((month d / 10) mod 10) + (month d / 1) mod 10)
      with (month d) by (Z.div_mod_to_equations; lia).
    replace (10 * ((day d / 10) mod 10) + (day d / 1) mod 10)
      with (day d) by (Z.div_mod_to_equations; lia).
    rewrite Hd. by destruct d.
  - pose proof (Z.mod_pos_bound (year d / 1000) 10). lia.
  - pose proof (Z.mod_pos_bound (year d / 100) 10). lia.
  - pose proof (Z.mod_pos_bound (year d / 10) 10). lia.
  - pose proof (Z.mod_pos_bound (year d / 1) 10). lia.
  - pose proof (Z.mod_pos_bound (month d / 10) 10). lia.
  - pose proof (Z.mod_pos_bound (month d / 1) 10). lia.
  - pose proof (Z.mod_pos_bound (day d / 10) 10). lia.
  - pose proof (Z.mod_pos_bound (day d / 1) 10). lia.
  - Z.div_mod_to_equations; lia.
  - Z.div_mod_to_equations; lia.
Qed.

End Canonical.


(** ** Today as the default date *)

Section Today.
Context {A : Type} `{Amount A} `{FloatOf A}.
Variable libc_pads_year : bool.

Lemma strftime_Ymd_isoformat (d : Datetime.date) :
  Datetime.check_date_fields (Datetime.year d) (Datetime.month d) (Datetime.day d) = true →
  libc_pads_year = true ∨ 1000 ≤ Datetime.year d →
  strftime_Ymd libc_pads_year d = Text.isoformat d.
Proof.
  intros (Hy & _)%check_date_fields_true Hpad.
  unfold strftime_Ymd, strftime_Ym, strftime_Y, Text.isoformat.
  assert ((if libc_pads_year then Text.zfill 4 (Datetime.year d)
           else Text.str (Datetime.year d)) = Text.zfill 4 (Datetime.year d)) as ->.
  { destruct libc_pads_year; [done|]. destruct Hpad as [?|Hy']; [done|].
    unfold Datetime.MAXYEAR in Hy. apply str_zfill_4. lia. }
  by rewrite !append_assoc.
Qed.

(** X7.  An add with the date left empty, on a clock that shows a date
    of the calendar whose year prints in four digits, never fails on the
    date: it appends a record dated today, in the canonical text of the
    date, and saves. *)
Theorem add_expenses_today (st : state A)
    (amount_text category_text date_text : string) (rest : list string) (a : A) :
  stdin st = amount_text :: category_text :: date_text :: rest →
  float_of (Text.strip amount_text) = Some a →
  Text.strip date_text = "" →
  Datetime.check_date_fields (Datetime.year (now st)) (Datetime.month (now st))
    (Datetime.day (now st)) = true →
  libc_pads_year = true ∨ 1000 ≤ Datetime.year (now st) →
  let expense := mkExpense a (Text.strip category_text) (Text.isoformat (now st)) in
  add_expenses libc_pads_year st =
    (Ok tt,
     mkState (expenses st ++ [expense]) rest
       (stdout st ++ [MsgAdded a (Text.strip category_text) (Text.isoformat (now st))])
       (<["expenses.json" := Document (JArr (to_dict <$> (expenses st ++ [expense])))]>
          (files st))
       (now st)).
Proof.
  intros Hin Hfloat Hempty Hnow Hpad expense.
  destruct st as [ex inp out fs nw]; simpl in *; subst inp.
  unfold add_expenses. run. rewrite Hfloat. simpl. rewrite Hempty. simpl.
  rewrite strftime_Ymd_isoformat by done.
  unfold validate_date. rewrite strptime_isoformat by done. reflexivity.
Qed.

End Today.


(** ** What every turn of the menu keeps *)

(** The statements that change no state preserve every preorder. *)
Ltac preserves_leaf :=
  match goal with
  | |- preserves ?R (mret _) => apply (preserves_ret R)
  | |- preserves ?R (raise _) => apply (preserves_raise R)
  | |- preserves ?R (gets _) => apply (preserves_gets R)
  | |- preserves ?R (lift _) => apply (preserves_lift R)
  end.

Section MenuPreserves.
Context {A : Type} `{Amount A} `{FloatOf A}.
Variable libc_pads_year : bool.
Context (R : relation (state A)) `{!PreOrder R}.
Hypothesis R_print : ∀ m : message A, preserves R (print m).
Hypothesis R_input : preserves R (input (A:=A)).
Hypothesis R_add : preserves R (add_expenses (A:=A) libc_pads_year).
Hypothesis R_edit : preserves R (edit_expense (A:=A)).
Hypothesis R_delete : preserves R (delete_expense (A:=A)).

(** A relation that printing, reading and the three methods that write
    preserve is preserved by the whole menu loop, however long it runs. *)
Lemma preserves_menu_loop (fuel : nat) :
  preserves R (menu_loop libc_pads_year fuel).
Proof.
  induction fuel as [|fuel IH]; [apply (preserves_ret R)|].
  cbn [menu_loop].
  apply (preserves_bind R); [apply R_print|intros _].
  apply (preserves_bind R); [apply R_input|intros text].
  repeat case_bool_decide;
    (apply (preserves_bind R); [|intros ?; first [exact IH|apply (preserves_ret R)]]);
    first [ exact R_add | exact R_edit | exact R_delete | apply R_print
          | by apply preserves_view_summary
          | by apply preserves_graphical_summary ].
Qed.

End MenuPreserves.

(** *** The dates of the ledger stay valid *)

Section DatesValid.
Context {A : Type} `{Amount A} `{FloatOf A}.
Variable libc_pads_year : bool.

#[local] Instance dates_stay_valid_preorder : PreOrder (dates_stay_valid (A:=A)).
Proof.
  split; [intros st Hv; exact Hv|].
  intros st1 st2 st3 H12 H23 Hv. by apply H23, H12.
Qed.

(** A statement that leaves the records alone keeps them valid. *)
Lemma dates_stay_valid_same_expenses {T} (m : M A T) :
  (∀ st, expenses (m st).2 = expenses st) → preserves dates_stay_valid m.
Proof. intros Hm st Hv. unfold dates_valid. by rewrite Hm. Qed.

Lemma dates_stay_valid_print (m : message A) : preserves dates_stay_valid (print m).
Proof. by apply dates_stay_valid_same_expenses. Qed.

Lemma dates_stay_valid_input : preserves dates_stay_valid (input (A:=A)).
Proof.
  apply dates_stay_valid_same_expenses. intros st. unfold input.
  by destruct (stdin st).
Qed.

Lemma dates_stay_valid_save (filename : string) :
  preserves dates_stay_valid (save_to_file (A:=A) filename).
Proof. by apply dates_stay_valid_same_expenses. Qed.

(** Appending is guarded by [validate_date]. *)
Lemma dates_stay_valid_append (a : A) (c d : string) (refused : M A unit)
    (k : M A unit) :
  preserves dates_stay_valid refused → preserves dates_stay_valid k →
  preserves dates_stay_valid
    (if negb (validate_date d) then refused
     else modify (λ st, set_expenses (expenses st ++ [mkExpense a c d]) st) ≫= λ _, k).
Proof.
  intros Hr Hk. destruct (validate_date d) eqn:Hd; [|done].
  apply (preserves_bind dates_stay_valid); [|done].
  intros st Hv. apply Forall_app. split; [done|]. by constructor.
Qed.

(** Assignments to the amount and the category leave the dates alone,
    and the date is assigned only when it is valid. *)
Lemma dates_stay_valid_assign (i : nat) (f : Expense A → Expense A) :
  (∀ e, validate_date (date e) = true → validate_date (date (f e)) = true) →
  preserves dates_stay_valid (assign i f).
Proof.
  intros Hf st Hv. unfold dates_valid in *. simpl.
  apply Forall_alter; [done|]. intros e _. apply Hf.
Qed.

Lemma dates_stay_valid_add_expenses :
  preserves dates_stay_valid (add_expenses (A:=A) libc_pads_year).
Proof.
  unfold add_expenses.
  repeat first
    [ apply dates_stay_valid_append
    | apply dates_stay_valid_print | apply dates_stay_valid_input
    | apply dates_stay_valid_save | preserves_leaf | preserves_step ].
Qed.

Lemma dates_stay_valid_edit_expense :
  preserves dates_stay_valid (edit_expense (A:=A)).
Proof.
  unfold edit_expense.
  repeat first
    [ apply (preserves_print_all dates_stay_valid dates_stay_valid_print)
    | apply dates_stay_valid_print | apply dates_stay_valid_input
    | apply dates_stay_valid_save
    | apply dates_stay_valid_assign; by intros []
    | match goal with
      | |- preserves _ (if validate_date ?d then _ else _) =>
          destruct (validate_date d) eqn:?
      end
    | preserves_leaf | preserves_step ].
Qed.

Lemma dates_stay_valid_delete_expense :
  preserves dates_stay_valid (delete_expense (A:=A)).
Proof.
  unfold delete_expense.
  repeat first
    [ apply (preserves_print_all dates_stay_valid dates_stay_valid_print)
    | apply dates_stay_valid_print | apply dates_stay_valid_input
    | apply dates_stay_valid_save
    | apply (preserves_modify dates_stay_valid); intros st Hv;
      by apply Forall_delete
    | preserves_leaf | preserves_step ].
Qed.

(** X8.  Once every date of the ledger passes [validate_date], it stays
    so through the menu: adding, editing, deleting and the summaries,
    whatever is typed and however the turn ends, leave no record with a
    date that [validate_date] refuses. *)
Theorem menu_keeps_dates_valid (fuel : nat) (st : state A) :
  dates_valid st → dates_valid (menu_loop libc_pads_year fuel st).2.
Proof.
  apply (preserves_menu_loop libc_pads_year dates_stay_valid);
    auto using dates_stay_valid_print, dates_stay_valid_input,
      dates_stay_valid_add_expenses, dates_stay_valid_edit_expense,
      dates_stay_valid_delete_expense.
Qed.

End DatesValid.


(** *** The data file follows the ledger *)

Section Persisted.
Context {A : Type} `{Amount A} `{FloatOf A}.
Variable libc_pads_year : bool.

#[local] Instance saved_or_same_preorder : PreOrder (saved_or_same (A:=A)).
Proof.
  split; [intros st; left; by split|].
  intros st1 st2 st3 [[He12 Hf12]|Hs2] [[He23 Hf23]|Hs3]; try by right.
  - left. split; congruence.
  - right. unfold synced in *. by rewrite He23, Hf23.
Qed.

Lemma saved_or_same_same {T} (m : M A T) :
  preserves same_ledger m → preserves saved_or_same m.
Proof. intros Hm st. left. apply Hm. Qed.

Lemma saved_or_same_print (m : message A) : preserves saved_or_same (print m).
Proof. apply saved_or_same_same, same_ledger_print. Qed.

Lemma saved_or_same_input : preserves saved_or_same (input (A:=A)).
Proof. apply saved_or_same_same, same_ledger_input. Qed.

(** After [save_to_file] the file holds the ledger. *)
Lemma synced_save (st : state A) : synced (save_to_file "expenses.json" st).2.
Proof. unfold synced. simpl. by rewrite lookup_insert_eq. Qed.

(** A change to the ledger that is followed by a save, with only
    printing in between and after, ends with the ledger saved. *)
Lemma saved_or_same_change_save (f : state A → list (Expense A)) (m : message A) :
  preserves saved_or_same
    (modify (λ st, set_expenses (f st) st) ≫= λ _,
     print m ≫= λ _, save_to_file "expenses.json").
Proof. intros st. right. unfold synced. simpl. by rewrite lookup_insert_eq. Qed.

(** The three assignments of an edit, the save and the last message. *)
Lemma saved_or_same_edit_block (i : nat) (new_amount new_category new_date : string) :
  preserves saved_or_same
    ((if nonempty new_amount then
        try_except
          (a ← float new_amount; assign i (with_amount a))
          (λ e, match e with
                | ValueError => Some (print MsgKeepingAmount)
                | _ => None
                end)
      else mret tt) ≫= λ _,
     (if nonempty new_category then assign i (with_category new_category)
      else mret tt) ≫= λ _,
     (if nonempty new_date then
        if validate_date new_date then assign i (with_date new_date)
        else print MsgKeepingDate
      else mret tt) ≫= λ _,
     save_to_file "expenses.json" ≫= λ _, print (A:=A) MsgUpdated).
Proof.
  intros st. right. unfold synced. run.
  destruct (nonempty new_amount); [destruct (float_of new_amount)|];
    (destruct (nonempty new_category));
    (destruct (nonempty new_date); [destruct (validate_date new_date)|]);
    simpl; by rewrite lookup_insert_eq.
Qed.

Lemma saved_or_same_add_expenses :
  preserves saved_or_same (add_expenses (A:=A) libc_pads_year).
Proof.
  unfold add_expenses.
  repeat first
    [ apply (saved_or_same_change_save (λ st, expenses st ++ [_]))
    | apply saved_or_same_print | apply saved_or_same_input
    | preserves_leaf | preserves_step ].
Qed.

Lemma saved_or_same_delete_expense :
  preserves saved_or_same (delete_expense (A:=A)).
Proof.
  unfold delete_expense.
  repeat first
    [ apply (saved_or_same_change_save (λ st, delete _ (expenses st)))
    | apply (preserves_print_all saved_or_same saved_or_same_print)
    | apply saved_or_same_print | apply saved_or_same_input
    | preserves_leaf | preserves_step ].
Qed.

Lemma saved_or_same_edit_expense :
  preserves saved_or_same (edit_expense (A:=A)).
Proof.
  unfold edit_expense.
  repeat first
    [ apply saved_or_same_edit_block
    | apply (preserves_print_all saved_or_same saved_or_same_print)
    | apply saved_or_same_print | apply saved_or_same_input
    | preserves_leaf | preserves_step ].
Qed.

Lemma saved_or_same_menu_loop (fuel : nat) :
  preserves saved_or_same (menu_loop (A:=A) libc_pads_year fuel).
Proof.
  apply (preserves_menu_loop libc_pads_year saved_or_same);
    auto using saved_or_same_print, saved_or_same_input,
      saved_or_same_add_expenses, saved_or_same_edit_expense,
      saved_or_same_delete_expense.
Qed.

(** A ledger that is saved, or that is as it was when it was persisted,
    is persisted. *)
Lemma persisted_saved_or_same (st st' : state A) :
  persisted st → saved_or_same st st' → persisted st'.
Proof.
  intros Hp [[He Hf]|Hs]; unfold persisted in *.
  - by rewrite He, Hf.
  - unfold synced in Hs. rewrite Hs. simpl. apply comprehension_from_dict.
Qed.

(** The ledger is persisted after a load that returns, when the tracker
    is new. *)
Lemma persisted_load (st : state A) :
  (load_from_file "expenses.json" (set_expenses [] st)).1 = Ok tt →
  persisted (load_from_file "expenses.json" (set_expenses [] st)).2.
Proof.
  unfold load_from_file, persisted. run.
  destruct (files st !! "expenses.json") as [[data|text]|] eqn:Hfile; simpl;
    [|by rewrite Hfile..].
  destruct (iter data) as [items|e] eqn:Hiter; simpl.
  - destruct (comprehension from_dict items) as [loaded|e] eqn:Hload; simpl.
    + rewrite Hfile. simpl. by rewrite Hiter.
    + by destruct (comprehension_from_dict_raises _ _ Hload) as [->|[key ->]].
  - by destruct (iter_raises _ _ Hiter) as [->|[key ->]].
Qed.

(** X9.  While the program runs the menu, a restart would find the
    ledger it has in memory: once the data file has been loaded without
    an exception, whatever is typed and however the program ends (through
    "6", with an exception, or still running), the data file reads back
    as the ledger in memory, or there is no readable file and the ledger
    is empty. *)
Theorem main_keeps_ledger_persisted (fuel : nat) (st : state A) :
  (load_from_file "expenses.json" (set_expenses [] st)).1 = Ok tt →
  persisted (main libc_pads_year fuel st).2.
Proof.
  intros Hload. pose proof (persisted_load st Hload) as Hp.
  unfold main. unfold mbind at 1 2, M_bind at 1 2, modify at 1.
  destruct (load_from_file "expenses.json" (set_expenses [] st)) as [[[]|e] st1];
    simpl in *; [|done].
  eapply persisted_saved_or_same; [exact Hp|].
  apply saved_or_same_menu_loop.
Qed.

End Persisted.


(** ** The exceptions that leave the menu *)

Section RaisesOnly.
Context {A : Type} `{Amount A} `{FloatOf A}.
Variable libc_pads_year : bool.
Implicit Types P Q : exn → state A → Prop.



















End RaisesOnly.


(** ** A granularity that is none of the three *)

Section InvalidGranularity.
Context {A : Type} `{Amount A} `{FloatOf A}.
Variable libc_pads_year : bool.

Lemma time_key_no_granularity time_choice (e : Expense A) (d : Datetime.date) :
  ¬ granularity time_choice → time_key libc_pads_year time_choice e d = None.
Proof.
  intros Hg. unfold time_key, granularity in *.
  destruct (time_choice =? 1) eqn:H1; [lia|].
  destruct (time_choice =? 2) eqn:H2; [lia|].
  destruct (time_choice =? 3) eqn:H3; [lia|done].
Qed.

(** The loop passes the records whose date is not valid, reporting each,
    whatever the choice is. *)
Lemma summary_loop_skips time_choice (l1 l2 : list (Expense A)) summary (st : state A) :
  Forall (λ e, validate_date (date e) = false) l1 →
  summary_loop libc_pads_year time_choice (l1 ++ l2) summary st =
    summary_loop libc_pads_year time_choice l2 summary
      (set_stdout (stdout st ++ ((λ e, MsgSkipping (date e)) <$> l1)) st).
Proof.
  intros Hl1. revert st. induction Hl1 as [|e l1 He _ IH]; intros [ex inp out fs nw].
  - unfold set_stdout. simpl. by rewrite app_nil_r.
  - cbn [app summary_loop]. rewrite He. cbn [negb]. run. rewrite IH.
    unfold set_stdout. simpl. by rewrite <-app_assoc.
Qed.

(** X11.  A granularity that is none of 1, 2 and 3 is found out only at
    the first record whose date is valid: the records before it are
    reported as skipped, then "Invalid choice" is printed and no summary.
    On a ledger without a valid date the choice is never looked at: every
    record is reported as skipped, and the header of the summary is
    printed with no line under it. *)
Theorem view_summary_invalid_granularity (st : state A)
    (choice_text time_text : string) (rest : list string) (time_choice : Z) :
  expenses st ≠ [] →
  stdin st = choice_text :: time_text :: rest →
  Text.int (Text.strip choice_text) = Some 3 →
  Text.int (Text.strip time_text) = Some time_choice →
  ¬ granularity time_choice →
  (∀ l1 e l2,
     expenses st = l1 ++ e :: l2 →
     Forall (λ e, validate_date (date e) = false) l1 →
     validate_date (date e) = true →
     view_summary libc_pads_year st =
       (Ok tt,
        mkState (expenses st) rest
          (stdout st ++ ((λ e, MsgSkipping (date e)) <$> l1) ++ [MsgInvalidChoice])
          (files st) (now st)))
  ∧ (Forall (λ e, validate_date (date e) = false) (expenses st) →
     view_summary libc_pads_year st =
       (Ok tt,
        mkState (expenses st) rest
          (stdout st ++ ((λ e, MsgSkipping (date e)) <$> expenses st)
             ++ [MsgSummaryHeader])
          (files st) (now st))).
Proof.
  intros Hne Hin Hc Ht Hg.
  destruct st as [ex inp out fs nw]; simpl in *; subst inp.
  assert (bool_decide (length ex = 0%nat) = false) as Hlen
    by (apply bool_decide_eq_false; by destruct ex).
  split.
  - intros l1 e l2 -> Hl1 He.
    unfold view_summary. run. rewrite Hlen. simpl.
    rewrite Hc. run. rewrite Ht. run.
    rewrite summary_loop_skips by done. cbn [summary_loop].
    rewrite He. cbn [negb]. unfold validate_date in He.
    destruct (Datetime.strptime (date e)) as [d|]; [|done].
    rewrite time_key_no_granularity by done.
    run. unfold set_stdout. simpl. by rewrite <-app_assoc.
  - intros Hall.
    assert (∀ st : state A,
      summary_loop libc_pads_year time_choice ex ∅ st =
        summary_loop libc_pads_year time_choice [] ∅
          (set_stdout (stdout st ++ ((λ e, MsgSkipping (date e)) <$> ex)) st)) as Hloop.
    { intros st. rewrite <-(app_nil_r ex) at 1. by apply summary_loop_skips. }
    unfold view_summary. run. rewrite Hlen. simpl.
    rewrite Hc. run. rewrite Ht. run.
    rewrite Hloop. cbn [summary_loop]. run.
    change (sorted_items ∅) with (@nil (string * A)). simpl.
    unfold set_stdout. simpl. by rewrite <-app_assoc.
Qed.

End InvalidGranularity.


(** ** The totals of the chart and the totals of the summary *)

Section ChartTotals.
Context {A : Type} `{Amount A}.

(** The totals of the chart are a tally of the pairs of category and
    amount of the ledger. *)
Lemma category_totals_pairs (l : list (Expense A)) :
  category_totals l = tally ((λ e, (category e, amount e)) <$> l) ∅.
Proof.
  unfold category_totals, tally. generalize (∅ : gmap string A).
  induction l as [|e l IH]; intros d; [done|]. cbn. apply IH.
Qed.

Lemma tally_is_Some (pairs : list (string * A)) (d : gmap string A) (key : string) :
  is_Some (tally pairs d !! key) ↔ key ∈ pairs.*1 ∨ is_Some (d !! key).
Proof.
  revert d. induction pairs as [|[k a] pairs IH]; intros d.
  - cbn. rewrite elem_of_nil. tauto.
  - rewrite tally_cons, IH, fmap_cons, elem_of_cons. cbn [fst snd]. unfold add_to.
    destruct (decide (key = k)) as [->|Hne].
    + rewrite lookup_insert_eq. split; [by left; left|by right].
    + rewrite lookup_insert_ne by done. tauto.
Qed.

(** Filtering the items of a dictionary is filtering the dictionary. *)
Lemma filter_map_to_list (P : string * A → Prop) `{!∀ x, Decision (P x)}
    (d : gmap string A) :
  filter P (map_to_list d) ≡ₚ map_to_list (filter P d).
Proof.
  apply NoDup_Permutation.
  - apply NoDup_filter, NoDup_map_to_list.
  - apply NoDup_map_to_list.
  - intros [k v]. rewrite list_elem_of_filter, !elem_of_map_to_list.
    rewrite map_lookup_filter_Some. tauto.
Qed.

(** The keys of a tally that satisfy a test are tallied from the pairs
    that satisfy it. *)
Lemma filter_tally (Pk : string → Prop) `{!∀ k, Decision (Pk k)}
    (pairs : list (string * A)) (d : gmap string A) :
  filter (λ kv, Pk kv.1) (tally pairs d)
  = tally (filter (λ p, Pk p.1) pairs) (filter (λ kv, Pk kv.1) d).
Proof.
  revert d. induction pairs as [|[k a] pairs IH]; intros d; [done|].
  rewrite tally_cons, IH, filter_cons. cbn [fst snd].
  destruct (decide (Pk k)) as [Hk|Hk].
  - rewrite tally_cons. cbn [fst snd]. f_equal.
    unfold add_to. rewrite map_filter_insert_True by done.
    f_equal. f_equal. f_equal. rewrite map_lookup_filter.
    destruct (d !! k); [|done]. cbn. by rewrite option_guard_True.
  - f_equal. unfold add_to. by apply map_filter_insert_not.
Qed.

End ChartTotals.

Section ChartSums.

Lemma size_fmap_filter {T} (value : PrimFloat.float → Z) (g : T → PrimFloat.float)
    (P : T → Prop) `{!∀ x, Decision (P x)} (xs : list T) :
  size value (g <$> filter P xs) ≤ size value (g <$> xs).
Proof.
  induction xs as [|x xs IH]; [done|]. rewrite filter_cons.
  destruct (decide (P x)); rewrite !fmap_cons, !size_cons; lia.
Qed.

Lemma filter_category_pairs {A} (P : string → Prop) `{!∀ k, Decision (P k)}
    (l : list (Expense A)) :
  filter (λ p : string * A, P p.1) ((λ e, (category e, amount e)) <$> l)
  = (λ e, (category e, amount e)) <$> filter (λ e, P (category e)) l.
Proof.
  induction l as [|e l IH]; [done|].
  rewrite fmap_cons, !filter_cons. cbn [fst].
  destruct (decide (P (category e))); by rewrite ?fmap_cons, IH.
Qed.

(** X6.  The chart has one bar for each category text of the ledger;
    and when the additions of the amounts of the ledger do not round, its
    totals add up to the overall total of [view_summary]: no record is
    lost or counted twice. *)
Theorem chart_totals_cover_ledger (l : list (Expense PrimFloat.float)) :
  (∀ c, is_Some (category_totals l !! c) ↔ c ∈ category <$> l)
  ∧ (∀ ok bound, adds_exactly float_value ok bound l →
       py_sum (map_to_list (category_totals l)).*2 = total_overall l).
Proof.
  rewrite category_totals_pairs. split.
  - intros c. rewrite tally_is_Some, lookup_empty, <-list_fmap_compose.
    split; [intros [Hc|[? [=]]]|intros Hc; left]; exact Hc.
  - intros ok bound (Hexact & Hok & Hsize). unfold total_overall.
    assert (((λ e : Expense PrimFloat.float, (category e, amount e)) <$> l).*2
            = amount <$> l) as Hamounts by (by rewrite <-list_fmap_compose).
    rewrite <-Hamounts in *.
    apply (py_sum_tally float_value ok bound Hexact); [|done..].
    rewrite Hamounts. by apply Forall_fmap.
Qed.

(** X5.  The total of a category in [view_summary], which compares
    without regard to case, joins the bars of the chart whose texts are
    the same but for the case of their letters: when the additions of the
    amounts of the ledger do not round, it is the sum of their totals. *)
Theorem total_for_category_joins_chart_totals (c : string)
    (l : list (Expense PrimFloat.float)) (ok : PrimFloat.float → Prop) (bound : Z) :
  Text.is_ascii c = true →
  Forall (λ e, Text.is_ascii (category e) = true) l →
  adds_exactly float_value ok bound l →
  total_for_category c l =
    py_sum (filter (λ kv, Text.lower kv.1 = Text.lower c)
              (map_to_list (category_totals l))).*2.
Proof.
  intros _ _ (Hexact & Hok & Hsize). unfold total_for_category.
  set (matching := filter (λ e, Text.lower (category e) = Text.lower c) l).
  pose proof (filter_category_pairs (λ k, Text.lower k = Text.lower c) l) as Hpairs.
  cbn beta in Hpairs. fold matching in Hpairs.
  assert (((λ e : Expense PrimFloat.float, (category e, amount e)) <$> matching).*2
          = amount <$> matching) as Hamounts by (by rewrite <-list_fmap_compose).
  symmetry. rewrite <-Hamounts.
  apply (py_sum_tally float_value ok bound Hexact).
  - rewrite Hamounts. apply Forall_fmap.
    rewrite Forall_forall in Hok |- *.
    intros e [_ He]%list_elem_of_filter. by apply Hok.
  - rewrite Hamounts. etrans; [apply size_fmap_filter|done].
  - rewrite <-Hpairs.
    pose proof (filter_tally (λ k, Text.lower k = Text.lower c)
                  ((λ e, (category e, amount e)) <$> l) ∅) as Hfilter.
    cbn beta in Hfilter. rewrite map_filter_empty in Hfilter.
    rewrite <-Hfilter, <-category_totals_pairs.
    apply fmap_Permutation,
      (filter_map_to_list (λ kv, Text.lower kv.1 = Text.lower c)).
Qed.

End ChartSums.


(** ** What a method changes of the ledger *)

Section OneRecord.
Context {A : Type} `{Amount A} `{FloatOf A}.
Variable libc_pads_year : bool.

Lemma add_expenses_appends (st : state A) :
  expenses (add_expenses libc_pads_year st).2 = expenses st
  ∨ ∃ e, validate_date (date e) = true
         ∧ expenses (add_expenses libc_pads_year st).2 = expenses st ++ [e].
Proof.
  destruct st as [ex inp out fs nw]. unfold add_expenses. run.
  destruct inp as [|amount_text inp]; simpl; [by left|].
  destruct (float_of (Text.strip amount_text)) as [a|]; simpl; [|by left].
  destruct inp as [|category_text [|date_text inp]]; simpl; [by left..|].
  match goal with
  | |- context [validate_date ?d] => destruct (validate_date d) eqn:Hd
  end; simpl; [|by left].
  right. by eexists (mkExpense _ _ _).
Qed.

Lemma delete_expense_removes (st : state A) :
  expenses (delete_expense st).2 = expenses st
  ∨ ∃ i e, expenses st !! i = Some e
           ∧ expenses (delete_expense st).2 = delete i (expenses st).
Proof.
  destruct st as [ex inp out fs nw]. unfold delete_expense. run.
  case_bool_decide; simpl; [by left|].
  rewrite print_all_run. simpl.
  destruct inp as [|choice_text inp]; simpl; [by left|].
  destruct (Text.int (Text.strip choice_text)) as [choice|]; simpl; [|by left].
  destruct (_ && _); simpl; [|by left].
  destruct (ex !! Z.to_nat (choice - 1)) as [e|] eqn:He; simpl; [|by left].
  right. by exists (Z.to_nat (choice - 1)), e.
Qed.

Lemma edit_expense_alters (st : state A) :
  ∃ i, length (expenses (edit_expense st).2) = length (expenses st)
       ∧ ∀ j, j ≠ i → expenses (edit_expense st).2 !! j = expenses st !! j.
Proof.
  destruct st as [ex inp out fs nw]. unfold edit_expense. run.
  case_bool_decide; simpl; [by exists 0%nat|].
  rewrite print_all_run. simpl.
  destruct inp as [|choice_text inp]; simpl; [by exists 0%nat|].
  destruct (Text.int (Text.strip choice_text)) as [choice|]; simpl; [|by exists 0%nat].
  destruct (_ && _); simpl; [|by exists 0%nat].
  destruct (ex !! Z.to_nat (choice - 1)) as [e|] eqn:He; simpl; [|by exists 0%nat].
  destruct inp as [|amount_text [|category_text [|date_text inp]]]; simpl;
    [by exists 0%nat..|].
  exists (Z.to_nat (choice - 1)).
  destruct (nonempty (Text.strip amount_text)); simpl;
    [destruct (float_of (Text.strip amount_text)); simpl|];
    (destruct (nonempty (Text.strip category_text)); simpl);
    (destruct (nonempty (Text.strip date_text)); simpl;
      [destruct (validate_date (Text.strip date_text)); simpl|]);
    rewrite ?length_alter; (split; [done|]); intros j Hj;
    by rewrite ?list_lookup_alter_ne.
Qed.

(** X12.  Whatever is typed, and whether the method returns or the input
    ends under it, a method changes at most one record: [add_expenses]
    leaves the ledger as it was or appends one record, whose date is
    valid, after the others; [delete_expense] leaves it or removes the
    record of one position; [edit_expense] keeps the number of records and
    every record but the one of a single position. *)
Theorem methods_change_one_record (st : state A) :
  (expenses (add_expenses libc_pads_year st).2 = expenses st
   ∨ ∃ e, validate_date (date e) = true
          ∧ expenses (add_expenses libc_pads_year st).2 = expenses st ++ [e])
  ∧ (expenses (delete_expense st).2 = expenses st
     ∨ ∃ i e, expenses st !! i = Some e
              ∧ expenses (delete_expense st).2 = delete i (expenses st))
  ∧ (∃ i, length (expenses (edit_expense st).2) = length (expenses st)
          ∧ ∀ j, j ≠ i → expenses (edit_expense st).2 !! j = expenses st !! j).
Proof.
  split; [apply add_expenses_appends|].
  split; [apply delete_expense_removes|apply edit_expense_alters].
Qed.

End OneRecord.


(** ** The buckets of the weekly summary *)

Section WeeklyBuckets.
Context {A : Type} `{Amount A}.
Variable libc_pads_year : bool.

Lemma digits_only_pretty_N_go (x : N) (s : string) :
  Text.digits_only s = true → Text.digits_only (pretty_N_go x s) = true.
Proof.
  revert s. induction (N.lt_wf_0 x) as [x _ IH]; intros s Hs.
  assert (x = 0 ∨ 0 < x)%N as [->|Hx] by lia; [by rewrite pretty_N_go_0|].
  rewrite pretty_N_go_step by done. apply IH; [by apply N.div_lt|].
  cbn [Text.digits_only]. unfold pretty_N_char. by repeat case_match.
Qed.

(** A year prints as digits. *)
Lemma digits_only_str (n : Z) : 0 ≤ n → Text.digits_only (Text.str n) = true.
Proof.
  intros Hn. unfold Text.str, pretty, pretty_Z.
  destruct n as [|p|p]; [done| |lia].
  unfold pretty, pretty_positive, pretty, pretty_N.
  rewrite decide_False by done. by apply digits_only_pretty_N_go.
Qed.

(** Two texts of digits, each followed by a dash, are told apart by
    their digits. *)
Lemma digits_dash_inj (a b r r' : string) :
  Text.digits_only a = true → Text.digits_only b = true →
  a +:+ String "-" r = b +:+ String "-" r' → a = b ∧ r = r'.
Proof.
  revert b. induction a as [|c a IH]; intros [|c' b] Ha Hb Heq; cbn in *.
  - by injection Heq as ->.
  - injection Heq as <- _. done.
  - injection Heq as -> _. done.
  - injection Heq as -> Heq.
    destruct (Datetime.digit_of c'); [|done].
    destruct (IH b Ha Hb Heq) as [-> ->]. done.
Qed.

Lemma weekly_bucket_key_run (e : Expense A) (d : Datetime.date) :
  Datetime.strptime (date e) = Some d →
  bucket_key libc_pads_year 3 e
  = Some (Text.str (Datetime.year d) +:+ "-W"
          +:+ Text.str (Datetime.isocalendar d).1.2).
Proof. intros Hd. unfold bucket_key. by rewrite Hd. Qed.

(** X13.  The buckets of the weekly summary are named by the calendar
    year and the ISO week number: two records with valid dates share a
    bucket exactly when they agree on both.  Two such records are in the
    same week, less than seven days apart, when the ISO year of each is
    its calendar year; the key does not tell the ISO years apart, so that
    the first days of a January that belong to the last ISO week of the
    year before are put with the end of their own December. *)
Theorem weekly_buckets (e1 e2 : Expense A) (d1 d2 : Datetime.date) :
  Datetime.strptime (date e1) = Some d1 →
  Datetime.strptime (date e2) = Some d2 →
  (bucket_key libc_pads_year 3 e1 = bucket_key libc_pads_year 3 e2
   ↔ Datetime.year d1 = Datetime.year d2
     ∧ (Datetime.isocalendar d1).1.2 = (Datetime.isocalendar d2).1.2)
  ∧ (bucket_key libc_pads_year 3 e1 = bucket_key libc_pads_year 3 e2 →
     (Datetime.isocalendar d1).1.1 = Datetime.year d1 →
     (Datetime.isocalendar d2).1.1 = Datetime.year d2 →
     -7 < Datetime.toordinal d2 - Datetime.toordinal d1 < 7).
Proof.
  intros Hd1 Hd2.
  rewrite (weekly_bucket_key_run e1 d1), (weekly_bucket_key_run e2 d2) by done.
  apply strptime_check_date_fields in Hd1, Hd2.
  assert (Some (Text.str (Datetime.year d1) +:+ "-W"
                +:+ Text.str (Datetime.isocalendar d1).1.2)
          = Some (Text.str (Datetime.year d2) +:+ "-W"
                  +:+ Text.str (Datetime.isocalendar d2).1.2)
          → Datetime.year d1 = Datetime.year d2
            ∧ (Datetime.isocalendar d1).1.2 = (Datetime.isocalendar d2).1.2) as Hinj.
  { intros [= Heq].
    apply check_date_fields_true in Hd1 as [Hy1 _], Hd2 as [Hy2 _].
    unfold Datetime.MINYEAR in *.
    apply digits_dash_inj in Heq as [Hy Hw]; [|apply digits_only_str; lia..].
    injection Hw as Hw. split; by apply (inj Text.str). }
  split; [split; [exact Hinj|by intros [-> ->]]|].
  intros [Hy Hw]%Hinj Hiso1 Hiso2.
  destruct (isocalendar_iso_week d1 Hd1) as [(_ & Hn1 & _) _].
  destruct (isocalendar_iso_week d2 Hd2) as [(_ & Hn2 & _) _].
  rewrite Hiso1 in Hn1. rewrite Hiso2, <-Hy, <-Hw in Hn2. lia.
Qed.

End WeeklyBuckets.


(** ** The texts [validate_date] accepts *)

Section Language.
Import Datetime.

Lemma digit_char_digit_of (c : ascii) (v : Z) :
  digit_of c = Some v → c = Text.digit_char v.
Proof.
  unfold digit_of, Text.digit_char. destruct (_ && _) eqn:E; [|done].
  intros [= <-].
  replace (48 + (Z.of_N (N_of_ascii c) - 48)) with (Z.of_N (N_of_ascii c)) by lia.
  by rewrite N2Z.id, ascii_N_embedding.
Qed.

Lemma in_range_Some (lo hi : Z) (c : ascii) (v : Z) :
  in_range lo hi c = Some v → c = Text.digit_char v ∧ lo ≤ v ≤ hi.
Proof.
  unfold in_range. destruct (digit_of c) as [x|] eqn:Hc; [|done]. cbn.
  destruct (_ && _) eqn:E; [|done]. intros [= <-].
  apply andb_true_iff in E as [E1%Z.leb_le E2%Z.leb_le].
  split; [by apply digit_char_digit_of|lia].
Qed.

Lemma blank_Some (c : ascii) (v : Z) : blank c = Some v → c = " "%char ∧ v = 0.
Proof. unfold blank. destruct (decide _) as [->|]; [|done]. by intros [= <-]. Qed.

Lemma elem_of_two (p1 p2 : ascii → option Z) (s : string) (n : Z) (r : string) :
  (n, r) ∈ two p1 p2 s →
  ∃ a b x y, s = String a (String b r) ∧ p1 a = Some x ∧ p2 b = Some y
             ∧ n = 10 * x + y.
Proof.
  unfold two. destruct s as [|a [|b rest]]; try (by intros ?%elem_of_nil).
  destruct (p1 a) as [x|] eqn:Ha; [|by intros ?%elem_of_nil].
  destruct (p2 b) as [y|] eqn:Hb; [|by intros ?%elem_of_nil].
  intros [= -> ->]%list_elem_of_singleton. by exists a, b, x, y.
Qed.

Lemma elem_of_one (p : ascii → option Z) (s : string) (n : Z) (r : string) :
  (n, r) ∈ one p s → ∃ a, s = String a r ∧ p a = Some n.
Proof.
  unfold one. destruct s as [|a rest]; [by intros ?%elem_of_nil|].
  destruct (p a) as [x|] eqn:Ha; [|by intros ?%elem_of_nil].
  intros [= -> ->]%list_elem_of_singleton. by exists a.
Qed.

Lemma first_match_Some {T U} (alts : list T) (k : T → option U) (b : U) :
  first_match alts k = Some b → ∃ a, a ∈ alts ∧ k a = Some b.
Proof.
  induction alts as [|a alts IH]; [done|]. cbn.
  destruct (k a) as [b'|] eqn:Ha.
  - intros [= ->]. exists a. split; [left|done].
  - intros (a' & Hin & Ha')%IH. exists a'. split; [by right|done].
Qed.

Lemma lit_Some (c : ascii) (s rest : string) : lit c s = Some rest → s = String c rest.
Proof.
  unfold lit. destruct s as [|a s]; [done|].
  destruct (decide (a = c)) as [->|]; [|done]. by intros [= ->].
Qed.

(** What the pattern of the month matches: one of the texts of a month
    from 1 to 12. *)
Lemma elem_of_re_m (s : string) (m : Z) (rest : string) :
  (m, rest) ∈ re_m s →
  1 ≤ m ≤ 12 ∧ ∃ ms, ms ∈ Text.month_texts m ∧ s = ms +:+ rest.
Proof.
  unfold re_m. rewrite !elem_of_app.
  intros [H|[H|H]].
  - apply elem_of_two in H as (a & b & x & y & Hs & Ha & Hb & Hm). subst s m.
    apply in_range_Some in Ha as [-> Hx]. apply in_range_Some in Hb as [-> Hy].
    assert (x = 1) as -> by lia.
    assert (y = 0 ∨ y = 1 ∨ y = 2) as [-> | [-> | ->]] by lia;
      (split; [lia|]); eexists; (split; [left|reflexivity]).
  - apply elem_of_two in H as (a & b & x & y & Hs & Ha & Hb & Hm). subst s m.
    apply in_range_Some in Ha as [-> Hx]. apply in_range_Some in Hb as [-> Hy].
    assert (x = 0) as -> by lia.
    assert (y = 1 ∨ y = 2 ∨ y = 3 ∨ y = 4 ∨ y = 5 ∨ y = 6 ∨ y = 7 ∨ y = 8 ∨ y = 9)
      as [->|[->|[->|[->|[->|[->|[-> | [-> | ->]]]]]]]] by lia;
      (split; [lia|]); eexists; (split; [left|reflexivity]).
  - apply elem_of_one in H as (a & Hs & Ha). subst s.
    apply in_range_Some in Ha as [-> Hx].
    assert (m = 1 ∨ m = 2 ∨ m = 3 ∨ m = 4 ∨ m = 5 ∨ m = 6 ∨ m = 7 ∨ m = 8 ∨ m = 9)
      as [->|[->|[->|[->|[->|[->|[-> | [-> | ->]]]]]]]] by lia;
      (split; [lia|]); eexists; (split; [right; left|reflexivity]).
Qed.


(** The same for the day: one of the texts of a day from 1 to 31. *)
Lemma elem_of_re_d (s : string) (d : Z) (rest : string) :
  (d, rest) ∈ re_d s →
  1 ≤ d ≤ 31 ∧ ∃ ds, ds ∈ Text.day_texts d ∧ s = ds +:+ rest.
Proof.
  unfold re_d. rewrite !elem_of_app.
  intros [H|[H|[H|[H|H]]]].
  - apply elem_of_two in H as (a & b & x & y & Hs & Ha & Hb & Hd). subst s d.
    apply in_range_Some in Ha as [-> Hx]. apply in_range_Some in Hb as [-> Hy].
    assert (x = 3) as -> by lia.
    assert (y = 0 ∨ y = 1) as [-> | ->] by lia;
      (split; [lia|]); eexists; (split; [left|reflexivity]).
  - apply elem_of_two in H as (a & b & x & y & Hs & Ha & Hb & Hd). subst s d.
    apply in_range_Some in Ha as [-> Hx]. apply in_range_Some in Hb as [-> Hy].
    assert (x = 1 ∨ x = 2) as [-> | ->] by lia;
      (assert (y = 0 ∨ y = 1 ∨ y = 2 ∨ y = 3 ∨ y = 4 ∨ y = 5 ∨ y = 6 ∨ y = 7
               ∨ y = 8 ∨ y = 9)
         as [-> | [-> | [-> | [-> | [-> | [-> | [-> | [-> | [-> | ->]]]]]]]]] by lia);
      (split; [lia|]); eexists; (split; [left|reflexivity]).
  - apply elem_of_two in H as (a & b & x & y & Hs & Ha & Hb & Hd). subst s d.
    apply in_range_Some in Ha as [-> Hx]. apply in_range_Some in Hb as [-> Hy].
    assert (x = 0) as -> by lia.
    assert (y = 1 ∨ y = 2 ∨ y = 3 ∨ y = 4 ∨ y = 5 ∨ y = 6 ∨ y = 7 ∨ y = 8 ∨ y = 9)
      as [-> | [-> | [-> | [-> | [-> | [-> | [-> | [-> | ->]]]]]]]] by lia;
      (split; [lia|]); eexists; (split; [left|reflexivity]).
  - apply elem_of_one in H as (a & Hs & Ha). subst s.
    apply in_range_Some in Ha as [-> Hx].
    assert (d = 1 ∨ d = 2 ∨ d = 3 ∨ d = 4 ∨ d = 5 ∨ d = 6 ∨ d = 7 ∨ d = 8 ∨ d = 9)
      as [-> | [-> | [-> | [-> | [-> | [-> | [-> | [-> | ->]]]]]]]] by lia;
      (split; [lia|]); eexists; (split; [right; left|reflexivity]).
  - apply elem_of_two in H as (a & b & x & y & Hs & Ha & Hb & Hd). subst s d.
    apply blank_Some in Ha as [-> ->]. apply in_range_Some in Hb as [-> Hy].
    assert (y = 1 ∨ y = 2 ∨ y = 3 ∨ y = 4 ∨ y = 5 ∨ y = 6 ∨ y = 7 ∨ y = 8 ∨ y = 9)
      as [-> | [-> | [-> | [-> | [-> | [-> | [-> | [-> | ->]]]]]]]] by lia;
      (split; [lia|]); eexists; (split; [right; right; left|reflexivity]).
Qed.

Lemma zfill_4_chars (y : Z) :
  Text.zfill 4 y =
    String (Text.digit_char ((y / 1000) mod 10))
   (String (Text.digit_char ((y / 100) mod 10))
   (String (Text.digit_char ((y / 10) mod 10))
   (String (Text.digit_char ((y / 1) mod 10)) ""))).
Proof. reflexivity. Qed.

(** The pattern of the year matches four digits: the year zero-filled. *)
Lemma re_Y_Some (s : string) (y : Z) (rest : string) :
  re_Y s = Some (y, rest) ↔ 0 ≤ y ≤ 9999 ∧ s = Text.zfill 4 y +:+ rest.
Proof.
  split.
  - unfold re_Y. destruct s as [|c1 [|c2 [|c3 [|c4 s]]]]; try done.
    destruct (digit_of c1) as [a1|] eqn:H1; [|done].
    destruct (digit_of c2) as [a2|] eqn:H2; [|done].
    destruct (digit_of c3) as [a3|] eqn:H3; [|done].
    destruct (digit_of c4) as [a4|] eqn:H4; [|done].
    cbn [mbind option_bind]. intros [= <- <-].
    pose proof (digit_of_range _ _ H1). pose proof (digit_of_range _ _ H2).
    pose proof (digit_of_range _ _ H3). pose proof (digit_of_range _ _ H4).
    apply digit_char_digit_of in H1 as ->, H2 as ->, H3 as ->, H4 as ->.
    split; [lia|]. rewrite zfill_4_chars, !append_cons.
    repeat f_equal; Z.div_mod_to_equations; lia.
  - intros [Hy ->]. rewrite zfill_4_chars, !append_cons. unfold re_Y.
    rewrite !digit_of_digit_char by (Z.div_mod_to_equations; lia).
    cbn [mbind option_bind]. do 2 f_equal. Z.div_mod_to_equations; lia.
Qed.


(** On a text of a month, the first alternative that matches is the one
    that reads the whole text. *)
Lemma re_m_month_texts (m : Z) (ms rest : string) :
  1 ≤ m ≤ 12 → ms ∈ Text.month_texts m →
  ∃ alts, re_m (ms +:+ String "-" rest) = (m, String "-" rest) :: alts.
Proof.
  intros Hm Hms.
  assert (m = 1 ∨ m = 2 ∨ m = 3 ∨ m = 4 ∨ m = 5 ∨ m = 6 ∨ m = 7 ∨ m = 8 ∨ m = 9
          ∨ m = 10 ∨ m = 11 ∨ m = 12)
    as [-> | [-> | [-> | [-> | [-> | [-> | [-> | [-> | [-> | [-> | [-> | ->]]]]]]]]]]]
    by lia;
    apply list_elem_of_In in Hms; vm_compute in Hms;
    repeat (destruct Hms as [<-|Hms]; [by eexists|]); destruct Hms.
Qed.

Lemma re_d_day_texts (d : Z) (ds : string) :
  1 ≤ d ≤ 31 → ds ∈ Text.day_texts d → ∃ alts, re_d ds = (d, "") :: alts.
Proof.
  intros Hd Hds.
  assert (Forall (λ d, Forall (λ ds, head (re_d ds) = Some (d, "")) (Text.day_texts d))
            (seqZ 1 31)) as Hall
    by (apply (bool_decide_unpack _); vm_compute; exact I).
  rewrite Forall_forall in Hall.
  specialize (Hall d). rewrite Forall_forall in Hall.
  specialize (Hall ltac:(apply elem_of_seqZ; lia) ds Hds).
  destruct (re_d ds) as [|alt alts]; [done|].
  injection Hall as ->. by exists alts.
Qed.

(** [strptime] reads a date from exactly the texts that spell it. *)
Lemma strptime_date_texts (text : string) (d : date) :
  strptime text = Some d ↔
  check_date_fields (year d) (month d) (day d) = true ∧ text ∈ Text.date_texts d.
Proof.
  split.
  - intros Hd. split; [by apply (strptime_check_date_fields text)|].
    unfold strptime in Hd.
    destruct (regex_match text) as [[[[y m] dd] rest]|] eqn:Hre; [|done].
    cbn [mbind option_bind] in Hd.
    destruct (decide (rest = "")) as [->|]; [|done].
    unfold new_date in Hd. destruct (check_date_fields y m dd); [|done].
    injection Hd as <-. cbn [year month day].
    unfold regex_match in Hre.
    destruct (re_Y text) as [[y' s1]|] eqn:HY; [|done].
    cbn [mbind option_bind] in Hre.
    destruct (lit "-" s1) as [s2|] eqn:Hl1; [|done].
    cbn [mbind option_bind] in Hre.
    apply first_match_Some in Hre as ([m' s3] & Hm & Hre).
    destruct (lit "-" s3) as [s4|] eqn:Hl2; [|done].
    cbn [mbind option_bind] in Hre.
    apply first_match_Some in Hre as ([d' s5] & Hdd & Hre).
    injection Hre as -> -> -> ->.
    apply re_Y_Some in HY as [_ ->].
    apply lit_Some in Hl1 as ->. apply lit_Some in Hl2 as ->.
    apply elem_of_re_m in Hm as [_ (ms & Hms & ->)].
    apply elem_of_re_d in Hdd as [_ (ds & Hds & ->)].
    unfold Text.date_texts. apply list_elem_of_bind. exists ms. split; [|done].
    apply list_elem_of_bind. exists ds. split; [|done].
    apply list_elem_of_singleton. by rewrite append_nil_r.
  - intros [Hd Htext].
    pose proof Hd as (Hy & Hm & Hdd)%check_date_fields_true.
    assert (days_in_month (year d) (month d) ≤ 31) as H31.
    { unfold days_in_month. destruct (_ && _); [lia|].
      assert (Z.to_nat (month d) < 13)%nat as Hlt by lia.
      destruct (Z.to_nat (month d)) as [|[|[|[|[|[|[|[|[|[|[|[|[|?]]]]]]]]]]]]];
        cbn; lia. }
    unfold MINYEAR, MAXYEAR in Hy.
    unfold Text.date_texts in Htext.
    apply list_elem_of_bind in Htext as (ms & Htext & Hms).
    apply list_elem_of_bind in Htext as (ds & Htext & Hds).
    apply list_elem_of_singleton in Htext as ->.
    destruct (re_m_month_texts (month d) ms ds Hm Hms) as [alts_m Hre_m].
    destruct (re_d_day_texts (day d) ds) as [alts_d Hre_d]; [lia|done|].
    unfold strptime, regex_match.
    change (Text.zfill 4 (year d) +:+ "-" +:+ ms +:+ "-" +:+ ds)
      with (Text.zfill 4 (year d) +:+ String "-" (ms +:+ String "-" ds)).
    rewrite (proj2 (re_Y_Some _ (year d) (String "-" (ms +:+ String "-" ds))))
      by (split; [lia|done]).
    cbn [mbind option_bind]. rewrite lit_same. cbn [mbind option_bind].
    rewrite Hre_m. cbn [first_match]. rewrite lit_same. cbn [mbind option_bind].
    rewrite Hre_d. cbn [first_match mbind option_bind].
    destruct (decide ("" = "")); [|done]. unfold new_date. rewrite Hd. by destruct d.
Qed.

(** X14.  Among the texts of ASCII characters, [validate_date] accepts
    exactly the spellings of the dates of the calendar, from year 1 to
    year 9999: the year in four digits, a dash, the month in two digits
    or, below ten, in one, a dash, and the day in two digits or, below
    ten, in one, with or without a blank before it. *)
Theorem validate_date_language (text : string) :
  Text.is_ascii text = true →
  (validate_date text = true ↔
   ∃ d, check_date_fields (year d) (month d) (day d) = true
        ∧ text ∈ Text.date_texts d).
Proof.
  intros _. unfold validate_date. split.
  - destruct (strptime text) as [d|] eqn:Hd; [|done]. intros _.
    exists d. by apply strptime_date_texts.
  - intros (d & Hd). apply strptime_date_texts in Hd. by rewrite Hd.
Qed.

End Language.


(** ** Adding, then deleting what was added *)

Section Composition.
Context {A : Type} `{Amount A} `{FloatOf A}.
Variable libc_pads_year : bool.

(** X15.  Deleting the record that was just added undoes the add: after
    an add that is accepted, a delete of the last position leaves the
    ledger as it was before the add, and the data file holds that
    ledger. *)
Theorem add_then_delete_last (st : state A)
    (amount_text category_text date_text choice_text : string)
    (rest : list string) (a : A) :
  stdin st = amount_text :: category_text :: date_text :: choice_text :: rest →
  float_of (Text.strip amount_text) = Some a →
  validate_date (date_entered libc_pads_year st date_text) = true →
  Text.int (Text.strip choice_text) = Some (Z.of_nat (length (expenses st)) + 1) →
  let st' := ((add_expenses libc_pads_year;; delete_expense) st).2 in
  expenses st' = expenses st
  ∧ stdin st' = rest
  ∧ files st'
    = <["expenses.json" := Document (JArr (to_dict <$> expenses st))]> (files st).
Proof.
  intros Hin Hfloat Hdate Hchoice.
  destruct st as [ex inp out fs nw]; simpl in *; subst inp.
  unfold date_entered in Hdate. simpl in Hdate.
  unfold add_expenses, delete_expense. run.
  rewrite Hfloat. simpl. rewrite Hdate. simpl.
  rewrite bool_decide_false by (rewrite length_app; simpl; lia).
  rewrite print_all_run. simpl. rewrite Hchoice. simpl.
  rewrite length_app. simpl.
  assert ((1 <=? Z.of_nat (length ex) + 1)
          && (Z.of_nat (length ex) + 1 <=? Z.of_nat (length ex + 1)) = true) as ->
    by (apply andb_true_intro; split; apply Z.leb_le; rewrite ?Nat2Z.inj_add; lia).
  replace (Z.to_nat (Z.of_nat (length ex) + 1 - 1)) with (length ex) by lia.
  rewrite list_lookup_middle by done. simpl.
  rewrite delete_middle, app_nil_r. by rewrite insert_insert_eq.
Qed.

End Composition.


(** ** The further statements, run on the samples *)

Lemma add_expenses_today_witness :
  expenses (add_expenses false (sample_state ["12"; "Fun"; ""])).2
  = sample_ledger ++ [mkExpense 12 "Fun" "2026-11-03"].
Proof.
  rewrite (add_expenses_today false (sample_state ["12"; "Fun"; ""])
             "12" "Fun" "" [] 12); try reflexivity.
  right. simpl. lia.
Defined.

Lemma menu_keeps_dates_valid_witness :
  dates_valid
    (menu_loop false 3 (sample_state ["1"; "12"; "Fun"; "2024-02-30"; "3"; "1"])).2.
Proof. apply menu_keeps_dates_valid. repeat constructor. Defined.

Lemma main_keeps_ledger_persisted_witness :
  persisted
    (main false 3
       (mkState [] ["1"; "12"; "Fun"; "2024-02-29"; "4"] [] ∅
          (Datetime.Date 2026 11 3))).2.
Proof. apply main_keeps_ledger_persisted. reflexivity. Defined.


Lemma view_summary_invalid_granularity_witness :
  stdout
    (view_summary false
       (mkState ledger_with_invalid_date ["3"; "7"] [] ∅ (Datetime.Date 2026 11 3))).2
  = [MsgSkipping "yesterday"; MsgInvalidChoice].
Proof.
  destruct (view_summary_invalid_granularity false
              (mkState ledger_with_invalid_date ["3"; "7"] [] ∅
                 (Datetime.Date 2026 11 3))
              "3" "7" [] 7) as [Hfirst _].
  - discriminate.
  - reflexivity.
  - reflexivity.
  - reflexivity.
  - unfold granularity. lia.
  - rewrite (Hfirst [mkExpense 5 "Tea" "yesterday"]
               (mkExpense 100 "Food" "2024-01-01") [] eq_refl).
    + reflexivity.
    + repeat constructor.
    + reflexivity.
Defined.

Lemma chart_totals_cover_ledger_witness :
  py_sum (map_to_list (category_totals round_ledger)).*2
  = total_overall round_ledger.
Proof.
  apply (proj2 (chart_totals_cover_ledger round_ledger) whole_amount whole_bound).
  apply whole_ledger_adds_exactly, round_ledger_whole.
Defined.

Lemma total_for_category_joins_chart_totals_witness :
  total_for_category "FOOD" round_ledger
  = py_sum (filter (λ kv, Text.lower kv.1 = Text.lower "FOOD")
              (map_to_list (category_totals round_ledger))).*2.
Proof.
  apply (total_for_category_joins_chart_totals "FOOD" round_ledger
           whole_amount whole_bound).
  - reflexivity.
  - repeat constructor.
  - apply whole_ledger_adds_exactly, round_ledger_whole.
Defined.

(** The first of January 2022 is in week 52 of the ISO year 2021, and
    shares the bucket "2022-W52" with the last of December 2022. *)
Lemma weekly_buckets_witness :
  bucket_key false 3 (mkExpense 1 "Tea" "2022-01-01")
  = bucket_key false 3 (mkExpense 2 "Tea" "2022-12-31").
Proof.
  destruct (weekly_buckets false (mkExpense 1 "Tea" "2022-01-01")
              (mkExpense 2 "Tea" "2022-12-31")
              (Datetime.Date 2022 1 1) (Datetime.Date 2022 12 31))
    as [[_ Hshare] _]; [reflexivity..|].
  apply Hshare. split; reflexivity.
Defined.

(** "2024-1- 5" is accepted: a month in one digit, a day as a blank and
    one digit. *)
Lemma validate_date_language_witness : validate_date "2024-1- 5" = true.
Proof.
  apply (validate_date_language "2024-1- 5"); [reflexivity|].
  exists (Datetime.Date 2024 1 5). split; [reflexivity|].
  apply list_elem_of_In. vm_compute. tauto.
Defined.

Lemma add_then_delete_last_witness :
  expenses
    ((add_expenses false;; delete_expense)
       (sample_state ["12"; "Fun"; "2024-02-29"; "4"])).2
  = sample_ledger.
Proof.
  destruct (add_then_delete_last false
              (sample_state ["12"; "Fun"; "2024-02-29"; "4"])
              "12" "Fun" "2024-02-29" "4" [] 12) as [Hledger _];
    [reflexivity..|exact Hledger].
Defined.

Lemma load_from_file_run_witness :
  load_from_file "expenses.json"
    (mkState [] [] []
       {["expenses.json" := Document (JArr (to_dict <$> sample_ledger))]}
       (Datetime.Date 2026 11 3))
  = (Ok tt,
     mkState sample_ledger [] [MsgLoaded 3 "expenses.json"]
       {["expenses.json" := Document (JArr (to_dict <$> sample_ledger))]}
       (Datetime.Date 2026 11 3)).
Proof.
  destruct (load_from_file_run
              (mkState [] [] []
                 {["expenses.json" := Document (JArr (to_dict <$> sample_ledger))]}
                 (Datetime.Date 2026 11 3)) "expenses.json") as [Hrun _].
  - intros f Hf. cbn [files] in Hf. rewrite lookup_singleton_eq in Hf.
    injection Hf as <-. apply (read_as_the_code_does_saved sample_ledger).
  - rewrite Hrun. reflexivity.
Defined.
